(** * pygameui: style resolution (theme.py) and event dispatch (__init__.py)

    A shallow embedding of [pygameui.theme.Theme], [pygameui.theme.use_theme]
    and the event loop body of [pygameui.run], with the properties of the
    style resolver and of the dispatcher proved over it.

    Python dictionaries are finite maps ([gmap]); a method of an object
    that owns mutable state is a computation in a state-and-exception
    monad over that state. *)

From stdpp Require Import gmap strings list fin_maps sorting.
From Stdlib Require Import ZArith.

Local Open Scope string_scope.
Local Open Scope list_scope.

(** ** Python outcomes: a value or a raised exception *)

(** The exception classes the modelled code can raise. *)
Inductive exn : Type :=
  | IndexError      (* indexing an empty tuple: [klass.__bases__[0]] *)
  | KeyError        (* a missing dictionary key *)
  | AttributeError  (* an attribute of [None] *)
  | AssertionError  (* a failed [assert] *)
  | SystemExit.     (* [sys.exit()] *)

Definition exn_name (e : exn) : string :=
  match e with
  | IndexError => "IndexError"
  | KeyError => "KeyError"
  | AttributeError => "AttributeError"
  | AssertionError => "AssertionError"
  | SystemExit => "SystemExit"
  end.

Global Instance exn_eq_dec : EqDecision exn.
Proof. solve_decision. Defined.

Inductive outcome (A : Type) : Type :=
  | Return (a : A)
  | Raise (e : exn).
Arguments Return {A} a.
Arguments Raise {A} e.

(** A computation over a mutable state [S].  A raised exception keeps
    the state reached so far: Python does not roll back. *)
Definition Py (S A : Type) : Type := S → outcome A * S.

Global Instance Py_ret {S} : MRet (Py S) := λ A a s, (Return a, s).

Global Instance Py_bind {S} : MBind (Py S) := λ A B f m s,
  match m s with
  | (Return a, s') => f a s'
  | (Raise e, s') => (Raise e, s')
  end.

Definition raise {S A} (e : exn) : Py S A := λ s, (Raise e, s).

Definition get_state {S} : Py S S := λ s, (Return s, s).

Definition put_state {S} (s : S) : Py S unit := λ _, (Return tt, s).

Definition modify {S} (f : S → S) : Py S unit := λ s, (Return tt, f s).

(** A pure step that may raise. *)
Definition lift {S A} (o : outcome A) : Py S A := λ s, (o, s).

(** [try: body / except exc: handler]. *)
Definition try_except {S A} (body : Py S A) (exc : exn) (handler : Py S A)
  : Py S A := λ s,
  match body s with
  | (Raise e, s') => if decide (e = exc) then handler s' else (Raise e, s')
  | r => r
  end.

(** [for x in xs: acc = body(acc, x)], the loop variable threaded. *)
Fixpoint for_each {S A B} (xs : list B) (acc : A) (body : A → B → Py S A)
  : Py S A :=
  match xs with
  | [] => mret acc
  | x :: xs' => acc' ← body acc x; for_each xs' acc' body
  end.

Definition result_of {S A} (r : outcome A * S) : outcome A := r.1.
Definition state_of {S A} (r : outcome A * S) : S := r.2.

(** ** Dictionaries *)

(** [d[k]]: raises [KeyError] when [k] is missing. *)
Definition getitem `{Countable K} {A} (d : gmap K A) (k : K) : outcome A :=
  match d !! k with
  | Some a => Return a
  | None => Raise KeyError
  end.

(** [d.setdefault(k, default)]: the dictionary afterwards and the value
    returned. *)
Definition setdefault `{Countable K} {A} (d : gmap K A) (k : K) (default : A)
  : gmap K A * A :=
  match d !! k with
  | Some a => (d, a)
  | None => (<[k := default]> d, default)
  end.

(** [dict(chain(a.items(), b.items()))]: the items of [b] are inserted
    after those of [a], so [b] wins on a common key. *)
Definition dict_chain `{Countable K} {A} (a b : gmap K A) : gmap K A := b ∪ a.

(** ** Classes *)

(** A class object as far as the resolver looks at it: [__name__] and
    [__bases__].  Inheritance has no cycle, so the type is inductive. *)
Local Unset Elimination Schemes.
Inductive pyclass : Type :=
  | PyClass (name : string) (bases : list pyclass).
Local Set Elimination Schemes.

Definition __name__ (klass : pyclass) : string :=
  match klass with PyClass name _ => name end.

Definition __bases__ (klass : pyclass) : list pyclass :=
  match klass with PyClass _ bases => bases end.

(** The first loop of [get_dict_for_class]:
<<
    classes = []
    klass = class_name
    while True:
        classes.append(klass)
        if klass.__name__ == base_name:
            break
        klass = klass.__bases__[0]
>>
    [klass.__bases__[0]] raises [IndexError] on the empty tuple. *)
Fixpoint collect_classes (klass : pyclass) (base_name : string)
  : outcome (list pyclass) :=
  match klass with
  | PyClass name bases =>
    if decide (name = base_name) then Return [klass]
    else match bases with
         | [] => Raise IndexError
         | parent :: _ =>
           match collect_classes parent base_name with
           | Return classes => Return (klass :: classes)
           | Raise e => Raise e
           end
         end
  end.

(** The chain of first parents of a class, the class itself first. *)
Fixpoint first_parents (klass : pyclass) : list pyclass :=
  match klass with
  | PyClass _ bases =>
    klass :: match bases with
             | [] => []
             | parent :: _ => first_parents parent
             end
  end.

(** Some class on the single-parent chain is named [base_name]. *)
Definition reaches (klass : pyclass) (base_name : string) : bool :=
  existsb (λ c, bool_decide (__name__ c = base_name)) (first_parents klass).

(** Induction along the first parent, the only one the resolver follows. *)
Fixpoint pyclass_first_ind (P : pyclass → Prop)
  (Hroot : ∀ name, P (PyClass name []))
  (Hstep : ∀ name parent rest, P parent → P (PyClass name (parent :: rest)))
  (klass : pyclass) : P klass :=
  match klass with
  | PyClass name [] => Hroot name
  | PyClass name (parent :: rest) =>
    Hstep name parent rest (pyclass_first_ind P Hroot Hstep parent)
  end.

(** ** Sorting *)

(** [sorted(xs, key=...)] on string keys.  Python's sort is stable and
    compares keys with [<] only; a stable insertion sort returns the same
    list.  An element is inserted before the first one whose key is not
    smaller than its own. *)
Section sorting.
Context {A : Type} (key : A → string).

Fixpoint insert_sorted (x : A) (xs : list A) : list A :=
  match xs with
  | [] => [x]
  | y :: xs' =>
    if String.ltb (key y) (key x) then y :: insert_sorted x xs'
    else x :: xs
  end.

Fixpoint sorted (xs : list A) : list A :=
  match xs with
  | [] => []
  | x :: xs' => insert_sorted x (sorted xs')
  end.

End sorting.

(** ** Theme *)

Section theme.
Context {V : Type}.

(** [Theme._styles]: class name, then state, then key. *)
Abbreviation cell_t := (gmap string V).
Abbreviation by_state_t := (gmap string (gmap string V)).
Abbreviation styles_t := (gmap string (gmap string (gmap string V))).

(** [self._styles[class_name][state][key] = value], each inner dictionary
    written back into its owner (Python reaches them by reference). *)
Definition setitem3 (class_name state key : string) (value : V)
  : Py styles_t unit :=
  styles ← get_state;
  by_state ← lift (getitem styles class_name);
  cell ← lift (getitem by_state state);
  put_state
    (<[class_name := <[state := <[key := value]> cell]> by_state]> styles).

(** [Theme.set]:
<<
    self._styles.setdefault(class_name, {}).setdefault(state, {})
    self._styles[class_name][state][key] = value
>> *)
Definition set (class_name state key : string) (value : V)
  : Py styles_t unit :=
  styles ← get_state;
  let '(styles, by_state) := setdefault styles class_name ∅ in
  let '(by_state, _) := setdefault by_state state ∅ in
  put_state (<[class_name := by_state]> styles);;
  setitem3 class_name state key value.

(** [Theme.set_for_class]:
<<
    self._styles.setdefault(class_name, {})
    for state, key, value in sorted(params, key=lambda x: x[0]):
        self._styles[class_name].setdefault(state, {})
        self._styles[class_name][state][key] = value
>> *)
Definition set_for_class (class_name : string)
  (params : list (string * string * V)) : Py styles_t unit :=
  styles ← get_state;
  put_state (setdefault styles class_name ∅).1;;
  for_each (sorted (λ x, x.1.1) params) tt (λ _ '(state, key, value),
    styles ← get_state;
    by_state ← lift (getitem styles class_name);
    put_state (<[class_name := (setdefault by_state state ∅).1]> styles);;
    setitem3 class_name state key value).

(** [Theme.set_for_theme]:
<<
    for class_name, args in params:
        self.set_for_class(class_name, args)
>> *)
Definition set_for_theme
  (params : list (string * list (string * string * V))) : Py styles_t unit :=
  for_each params tt (λ _ '(class_name, args), set_for_class class_name args).

(** [self._styles[class_name][state]] under [try ... except KeyError],
    the handler binding [{}]. *)
Definition styles_or_empty (class_name state : string)
  : Py styles_t cell_t :=
  try_except
    (styles ← get_state;
     by_state ← lift (getitem styles class_name);
     lift (getitem by_state state))
    KeyError
    (mret ∅).

(** [Theme.get_dict_for_class]:
<<
    classes = [] ... (the walk up the first parents)
    if state is None:
        state = 'normal'
    style = {}
    for klass in classes:
        class_name = klass.__name__
        try:
            state_styles = self._styles[class_name][state]
        except KeyError:
            state_styles = {}
        if state != 'normal':
            try:
                normal_styles = self._styles[class_name]['normal']
            except KeyError:
                normal_styles = {}
            state_styles = dict(chain(normal_styles.items(),
                                      state_styles.items()))
        style = dict(chain(state_styles.items(),
                           style.items()))
    return style
>> *)
Definition get_dict_for_class (class_name : pyclass) (state : option string)
  (base_name : string) : Py styles_t cell_t :=
  classes ← lift (collect_classes class_name base_name);
  let state := match state with None => "normal" | Some s => s end in
  for_each classes ∅ (λ style klass,
    let class_name := __name__ klass in
    state_styles ← styles_or_empty class_name state;
    state_styles ←
      (if decide (state ≠ "normal") then
         normal_styles ← styles_or_empty class_name "normal";
         mret (dict_chain normal_styles state_styles)
       else mret state_styles);
    mret (dict_chain state_styles style)).

(** A view instance as far as the theme looks at it: [obj.__class__] and
    [obj.state]. *)
Record pyobj : Type := PyObj {
  __class__ : pyclass;
  obj_state : option string;
}.

(** [Theme.get_dict]:
<<
    return self.get_dict_for_class(class_name=obj.__class__,
                                   state=obj.state,
                                   base_name=base_name)
>> *)
Definition get_dict (obj : pyobj) (state : option string)
  (base_name : string) : Py styles_t cell_t :=
  get_dict_for_class (__class__ obj) (obj_state obj) base_name.

(** [Theme.get_value]:
<<
    styles = self.get_dict_for_class(class_name, state, base_name)
    try:
        return styles[attr]
    except KeyError:
        return default_value
>> *)
Definition get_value (class_name : pyclass) (attr : string)
  (default_value : V) (state : option string) (base_name : string)
  : Py styles_t V :=
  styles ← get_dict_for_class class_name state base_name;
  try_except (lift (getitem styles attr)) KeyError (mret default_value).

(** [self._styles[class_name][state][key]] as an optional value: the entry
    the theme holds for a class, a state and a key, if any. *)
Definition entry (styles : styles_t) (class_name state key : string)
  : option V :=
  by_state ← styles !! class_name;
  cell ← by_state !! state;
  cell !! key.

(** What [styles_or_empty] binds: the cell of a class and state, or [{}]. *)
Definition style_cell (styles : styles_t) (class_name state : string)
  : cell_t :=
  match styles !! class_name with
  | Some by_state => default ∅ (by_state !! state)
  | None => ∅
  end.

(** The map one class contributes in one turn of the resolver's loop. *)
Definition class_layer (styles : styles_t) (state class_name : string)
  : cell_t :=
  if decide (state ≠ "normal")
  then dict_chain (style_cell styles class_name "normal")
                  (style_cell styles class_name state)
  else style_cell styles class_name state.

(** The second loop of [get_dict_for_class] as a fold over the classes. *)
Definition merge_layers (styles : styles_t) (state : string)
  (classes : list pyclass) (style : cell_t) : cell_t :=
  foldl (λ style klass,
           dict_chain (class_layer styles state (__name__ klass)) style)
        style classes.

(** The table after [self._styles[class_name][state][key] = value] with
    both inner dictionaries created on demand. *)
Definition write (class_name : string) (styles : styles_t)
  (param : string * string * V) : styles_t :=
  let '(state, key, value) := param in
  let by_state := default ∅ (styles !! class_name) in
  let cell := default ∅ (by_state !! state) in
  <[class_name := <[state := <[key := value]> cell]> by_state]> styles.

(** [Theme.set] called once per tuple, in the order of the list:
<<
    for state, key, value in params:
        self.set(class_name, state, key, value)
>> *)
Definition set_each (class_name : string)
  (params : list (string * string * V)) : Py styles_t unit :=
  for_each params tt (λ _ '(state, key, value),
    set class_name state key value).

End theme.

(** ** Modules and the event loop *)

Definition point : Type := Z * Z.

(** [pygame] event types the loop tells apart. *)
Inductive event_type : Type :=
  | QUIT | MOUSEBUTTONDOWN | MOUSEBUTTONUP | MOUSEMOTION | KEYDOWN | KEYUP
  | OTHER.

(** A [pygame] event with the attributes the loop reads. *)
Record event : Type := Event {
  e_type : event_type;
  e_button : Z;
  e_rel : point;
  e_key : Z;
  e_unicode : string;
}.

Section dispatch.
Context {view theme : Type} `{EqDecision view}.

(** The methods of view.py the loop relies on; view.py is not among the
    sources, so they are taken as given: [root.hit(pt)], the deepest view
    under a window point if any, [v.from_window(pt)], the point in the
    coordinates of [v], [isinstance(v, Scene)] and [v.draggable]. *)
Context (hit : view → point → option view).
Context (from_window : view → point → point).
Context (isinstance_Scene : view → bool).
Context (draggable : view → bool).

(** A method the loop (or the focus module) calls on a view. *)
Inductive call : Type :=
  | focused (v : view)
  | blurred (v : view)
  | mouse_down (v : view) (button : Z) (pt : point)
  | mouse_up (v : view) (button : Z) (pt : point)
  | mouse_drag (v : view) (pt rel : point)
  | mouse_motion (v : view) (pt : point)
  | key_down (v : view) (key : Z) (code : string)
  | key_up (v : view) (key : Z)
  | stylize (v : view).

(** The module-level names the modelled code reads and rebinds, and the
    calls made on views so far, oldest first. *)
Record modules : Type := Modules {
  view_stack : list view;              (* view.stack *)
  view_current : option view;          (* view.current *)
  focus_view : option view;            (* focus.view *)
  theme_current : option theme;        (* theme.current *)
  theme_current_view : option view;    (* theme.current_view *)
  calls : list call;
}.

Definition with_view (stack : list view) (current : option view)
  (m : modules) : modules :=
  Modules stack current (focus_view m) (theme_current m)
          (theme_current_view m) (calls m).

Definition with_focus_view (v : option view) (m : modules) : modules :=
  Modules (view_stack m) (view_current m) v (theme_current m)
          (theme_current_view m) (calls m).

Definition with_theme_current (t : option theme) (m : modules) : modules :=
  Modules (view_stack m) (view_current m) (focus_view m) t
          (theme_current_view m) (calls m).

Definition with_theme_current_view (v : option view) (m : modules)
  : modules :=
  Modules (view_stack m) (view_current m) (focus_view m) (theme_current m)
          v (calls m).

Definition with_call (c : call) (m : modules) : modules :=
  Modules (view_stack m) (view_current m) (focus_view m) (theme_current m)
          (theme_current_view m) (calls m ++ [c]).

(** Calling a method of a view; what the method does beyond being called
    is the view's business. *)
Definition invoke (c : call) : Py modules unit := modify (with_call c).

(** Line 5 of theme.py, [from .view import current as current_view], run
    once when the module is imported: the name [current_view] of the theme
    module is bound to the object [view.current] names at that moment.
    Rebinding [view.current] later does not rebind it. *)
Definition import_theme : Py modules unit :=
  m ← get_state;
  put_state (with_theme_current_view (view_current m)
               (with_theme_current None m)).

(** [theme.use_theme]:
<<
    global current
    current = theme
    if current_view is not None:
        current_view.stylize()
>> *)
Definition use_theme (t : theme) : Py modules unit :=
  modify (with_theme_current (Some t));;
  m ← get_state;
  match theme_current_view m with
  | Some v => invoke (stylize v)
  | None => mret tt
  end.

(** Modelled from the spec: [view.push], of view.py, which is not among
    the sources.  The view stack owns the top-level roots and the current
    root is the top of the stack: pushing a scene puts it on the stack and
    rebinds the module's [current] to it. *)
Definition view_push (scene : view) : Py modules unit :=
  m ← get_state;
  put_state (with_view (view_stack m ++ [scene]) (Some scene) m).

(** Modelled from the spec: [focus.set], of focus.py, which is not among
    the sources.  Setting the focus to the view that already has it (or to
    none when there is none) does nothing; otherwise the view that holds
    the focus, if any, is sent a blur notification, the new reference is
    installed, and the new view, if any, is sent a focus notification. *)
Definition focus_set (new_focus : option view) : Py modules unit :=
  m ← get_state;
  if decide (focus_view m = new_focus) then mret tt
  else
    match focus_view m with
    | Some old => invoke (blurred old)
    | None => mret tt
    end;;
    modify (with_focus_view new_focus);;
    match new_focus with
    | Some v => invoke (focused v)
    | None => mret tt
    end.

(** [view.current.<method>]: an attribute of [None] is an
    [AttributeError]. *)
Definition current_root : Py modules view :=
  m ← get_state;
  match view_current m with
  | Some root => mret root
  | None => raise AttributeError
  end.

(** The body of the loop [for e in pygame.event.get()] of [run], lines
    129 to 170.  [mousepoint] is what [pygame.mouse.get_pos()] returns
    when the event is handled; [down_in_view] is the local variable of
    [run], and its new value is returned.  A view object is true in a
    condition, so [if down_in_view] and [if focus.view] test for [None]. *)
Definition handle_event (e : event) (mousepoint : point)
  (down_in_view : option view) : Py modules (option view) :=
  match e_type e with
  | QUIT => raise SystemExit
  | MOUSEBUTTONDOWN =>
    root ← current_root;
    let hit_view := hit root mousepoint in
    match hit_view with
    | Some hv =>
      if negb (isinstance_Scene hv) then
        focus_set (Some hv);;
        let down_in_view := Some hv in
        let pt := from_window hv mousepoint in
        invoke (mouse_down hv (e_button e) pt);;
        mret down_in_view
      else
        focus_set None;; mret down_in_view
    | None =>
      focus_set None;; mret down_in_view
    end
  | MOUSEBUTTONUP =>
    root ← current_root;
    let hit_view := hit root mousepoint in
    match hit_view with
    | Some hv =>
      match down_in_view with
      | Some dv =>
        if decide (hv ≠ dv) then invoke (blurred dv);; focus_set None
        else mret tt
      | None => mret tt
      end;;
      let pt := from_window hv mousepoint in
      invoke (mouse_up hv (e_button e) pt)
    | None => mret tt
    end;;
    mret None
  | MOUSEMOTION =>
    match down_in_view with
    | Some dv =>
      if draggable dv then
        let pt := from_window dv mousepoint in
        invoke (mouse_drag dv pt (e_rel e));;
        mret down_in_view
      else
        root ← current_root;
        invoke (mouse_motion root mousepoint);;
        mret down_in_view
    | None =>
      root ← current_root;
      invoke (mouse_motion root mousepoint);;
      mret down_in_view
    end
  | KEYDOWN =>
    m ← get_state;
    match focus_view m with
    | Some v => invoke (key_down v (e_key e) (e_unicode e))
    | None =>
      root ← current_root;
      invoke (key_down root (e_key e) (e_unicode e))
    end;;
    mret down_in_view
  | KEYUP =>
    m ← get_state;
    match focus_view m with
    | Some v => invoke (key_up v (e_key e))
    | None =>
      root ← current_root;
      invoke (key_up root (e_key e))
    end;;
    mret down_in_view
  | OTHER => mret down_in_view
  end.

(** The events of one frame, each with the mouse position read while it
    is handled, in the order they were queued. *)
Definition handle_events (events : list (event * point))
  (down_in_view : option view) : Py modules (option view) :=
  for_each events down_in_view (λ down_in_view '(e, mousepoint),
    handle_event e mousepoint down_in_view).

(** The notifications [focus_set] sends when the focus goes from [old]
    to [new]. *)
Definition focus_notifications (old new : option view) : list call :=
  if decide (old = new) then []
  else match old with Some v => [blurred v] | None => [] end
       ++ match new with Some v => [focused v] | None => [] end.

(** The modules once the focus is [fv] and the calls [cs] have been made:
    all that handling a mouse event changes. *)
Definition after (m : modules) (fv : option view) (cs : list call)
  : modules :=
  Modules (view_stack m) (view_current m) fv (theme_current m)
          (theme_current_view m) (calls m ++ cs).

(** A computation that leaves [theme.current_view] bound as it was. *)
Definition keeps_current_view {A} (c : Py modules A) : Prop :=
  ∀ m, theme_current_view (state_of (c m)) = theme_current_view m.

Definition is_mouse_down (c : call) : bool :=
  match c with mouse_down _ _ _ => true | _ => false end.

Definition is_mouse_up_of (v : view) (c : call) : bool :=
  match c with mouse_up v' _ _ => bool_decide (v' = v) | _ => false end.

Definition is_blurred_of (v : view) (c : call) : bool :=
  match c with blurred v' => bool_decide (v' = v) | _ => false end.

End dispatch.

(** ** A theme and a scene for the examples *)

(** [AlertView(DialogView)], [DialogView(View)], [View(object)], and a
    class that is no view. *)
Definition object_class : pyclass := PyClass "object" [].
Definition View : pyclass := PyClass "View" [object_class].
Definition DialogView : pyclass := PyClass "DialogView" [View].
Definition AlertView : pyclass := PyClass "AlertView" [DialogView].
Definition Sprite : pyclass := PyClass "Sprite" [object_class].

(** A few entries of the light theme, values written as text. *)
Definition demo_params : list (string * list (string * string * string)) :=
  [ ("View",
     [ ("normal", "background_color", "white");
       ("focused", "background_color", "yellow");
       ("normal", "border_widths", "0");
       ("normal", "padding", "(0, 0)") ]);
    ("DialogView",
     [ ("normal", "background_color", "light_gray");
       ("normal", "shadowed", "True") ]);
    ("AlertView",
     [ ("normal", "padding", "(6, 6)") ]) ].

Definition demo_styles : gmap string (gmap string (gmap string string)) :=
  state_of (set_for_theme demo_params ∅).

(** A 640 by 480 scene with [button_a] at (0, 0, 50, 50) and [button_b]
    at (100, 0, 50, 50); views are named by strings. *)
Definition inside (p : point) (x y w h : Z) : bool :=
  bool_decide (x ≤ p.1 < x + w ∧ y ≤ p.2 < y + h)%Z.

Definition demo_hit (root : string) (p : point) : option string :=
  if inside p 0 0 50 50 then Some "button_a"
  else if inside p 100 0 50 50 then Some "button_b"
  else if inside p 0 0 640 480 then Some "scene"
  else None.

Definition demo_from_window (v : string) (p : point) : point :=
  if bool_decide (v = "button_b") then (p.1 - 100, p.2)%Z else p.

Definition demo_isinstance_Scene (v : string) : bool :=
  bool_decide (v = "scene").

Definition demo_draggable (v : string) : bool := false.

Definition demo_modules : Type :=
  @modules string (gmap string (gmap string (gmap string string))).

(** Before theme.py is imported: no scene, no focus. *)
Definition modules_at_start : demo_modules := Modules [] None None None None [].

(** theme.py imported, then a scene pushed. *)
Definition scene_pushed : demo_modules :=
  state_of ((import_theme;; view_push "scene") modules_at_start).

(** Left button down and up; a mouse event carries no key. *)
Definition press : event :=
  Event MOUSEBUTTONDOWN 1 (0, 0)%Z 0 EmptyString.
Definition release : event :=
  Event MOUSEBUTTONUP 1 (0, 0)%Z 0 EmptyString.

(** [button_a] pressed at (10, 10). *)
Definition button_a_pressed : demo_modules :=
  state_of (handle_event demo_hit demo_from_window demo_isinstance_Scene
              demo_draggable press (10, 10)%Z None scene_pushed).

(** ** What the resolver and the writers compute, key by key *)

Section theme_reading.
Context {V : Type}.

(** The value one class gives a key for a state: its entry under the
    state if there is one, else its entry under 'normal'. *)
Definition own_value (styles : gmap string (gmap string (gmap string V)))
  (state class_name key : string) : option V :=
  match entry styles class_name state key with
  | Some v => Some v
  | None => entry styles class_name "normal" key
  end.

(** The value of the first class of a chain that gives the key one. *)
Fixpoint resolve_key (styles : gmap string (gmap string (gmap string V)))
  (state : string) (classes : list pyclass) (key : string) : option V :=
  match classes with
  | [] => None
  | klass :: classes' =>
    match own_value styles state (__name__ klass) key with
    | Some v => Some v
    | None => resolve_key styles state classes' key
    end
  end.

(** The value of the last tuple of a list for a state and a key. *)
Fixpoint last_param (params : list (string * string * V))
  (state key : string) : option V :=
  match params with
  | [] => None
  | (state', key', value) :: params' =>
    match last_param params' state key with
    | Some v => Some v
    | None =>
      if decide (state' = state ∧ key' = key) then Some value else None
    end
  end.

(** The value of the last tuple, over all the blocks of a class, for a
    state and a key. *)
Fixpoint last_theme_param
  (params : list (string * list (string * string * V)))
  (class_name state key : string) : option V :=
  match params with
  | [] => None
  | (class_name', args) :: params' =>
    match last_theme_param params' class_name state key with
    | Some v => Some v
    | None =>
      if decide (class_name' = class_name) then last_param args state key
      else None
    end
  end.

End theme_reading.

(** ** What the loop leaves alone *)

Section dispatch_reading.
Context {view theme : Type} `{EqDecision view}.
Context (isinstance_Scene : view → bool).


(** No view, or a view that is no [Scene]. *)
Definition no_Scene (o : option view) : Prop :=
  ∀ v, o = Some v → isinstance_Scene v = false.


(** A computation whose returned value, when it returns, satisfies [P]. *)
Definition returns_in {A} (c : Py (@modules view theme) A) (P : A → Prop)
  : Prop :=
  ∀ m a, result_of (c m) = Return a → P a.

End dispatch_reading.

(** ** Start-up: [pygameui.init] *)

(** The values a configuration holds, as far as [init] passes them on. *)
Inductive pyvalue : Type :=
  | PyPair (a b : Z)
  | PyInt (n : Z)
  | PyBool (b : bool)
  | PyStr (s : string)
  | PyNone.

(** What [init] calls, in pygame and in the theme module. *)
Inductive init_call : Type :=
  | pygame_init
  | key_set_repeat (delay interval : Z)
  | display_set_mode (size mode : pyvalue)
  | display_set_caption (name : string)
  | mouse_set_visible (visible : pyvalue)
  | theme_init.

(** The names [init] binds, [window_surface] (the surface made for a size and a
    mode) and [window.rect] (a corner and a size), and its calls so far. *)
Record start_state : Type := StartState {
  window_surface : option (pyvalue * pyvalue);
  window_rect : option (point * pyvalue);
  init_calls : list init_call;
}.

Section start.
(** The flags [pygame.HWSURFACE] and [pygame.DOUBLEBUF], pygame's own. *)
Context (HWSURFACE DOUBLEBUF : Z).

(** [default_config], lines 80 to 84. *)
Definition default_config : gmap string pyvalue :=
  {[ "DISPLAY_SIZE" := PyPair 640 480;
     "DISPLAY_MODE" := PyInt (Z.lor HWSURFACE DOUBLEBUF);
     "MOUSE_VISIBLE" := PyBool true ]}.

(** [d.update(other)]: the items of [other] win. *)
Definition dict_update `{Countable K} {A} (d other : gmap K A) : gmap K A :=
  other ∪ d.

Definition init_invoke (c : init_call) : Py start_state unit :=
  modify (λ s, StartState (window_surface s) (window_rect s)
                          (init_calls s ++ [c])).

(** [init], lines 87 to 109; [config] is a dictionary or [None], and
    [if config] is false for [None] and for the empty dictionary:
<<
    pygame.init()
    if config:
        cfg = copy.deepcopy(default_config)
        cfg.update(config)
    else:
        cfg = default_config
    pygame.key.set_repeat(200, 50)
    global window_surface
    window_surface = pygame.display.set_mode(cfg['DISPLAY_SIZE'],
                                             cfg['DISPLAY_MODE'])
    pygame.display.set_caption(name)
    window.rect = pygame.Rect((0, 0), cfg['DISPLAY_SIZE'])
    pygame.mouse.set_visible(cfg['MOUSE_VISIBLE'])
    theme.init()
>> *)
Definition init (name : string) (config : option (gmap string pyvalue))
  : Py start_state unit :=
  init_invoke pygame_init;;
  let cfg :=
    match config with
    | Some config =>
      if decide (config ≠ ∅) then dict_update default_config config
      else default_config
    | None => default_config
    end in
  init_invoke (key_set_repeat 200 50);;
  size ← lift (getitem cfg "DISPLAY_SIZE");
  mode ← lift (getitem cfg "DISPLAY_MODE");
  init_invoke (display_set_mode size mode);;
  modify (λ s, StartState (Some (size, mode)) (window_rect s)
                          (init_calls s));;
  init_invoke (display_set_caption name);;
  size ← lift (getitem cfg "DISPLAY_SIZE");
  modify (λ s, StartState (window_surface s) (Some ((0, 0)%Z, size))
                          (init_calls s));;
  visible ← lift (getitem cfg "MOUSE_VISIBLE");
  init_invoke (mouse_set_visible visible);;
  init_invoke theme_init.

(** The setting [init] uses for a key: the configuration's if it has
    one, else the default's. *)
Definition setting (config : option (gmap string pyvalue)) (key : string)
  : option pyvalue :=
  match config ≫= (.!! key) with
  | Some v => Some v
  | None => default_config !! key
  end.

End start.

(** ** More events for the examples *)

(** The pointer moved by (5, 0); the key [a] down and up; the window
    closed. *)
Definition motion : event := Event MOUSEMOTION 0 (5, 0)%Z 0 EmptyString.
Definition key_a_down : event := Event KEYDOWN 0 (0, 0)%Z 97 "a".
Definition key_a_up : event := Event KEYUP 0 (0, 0)%Z 97 EmptyString.
Definition quit : event := Event QUIT 0 (0, 0)%Z 0 EmptyString.

(** A scene in which [button_a] can be dragged. *)
Definition demo_draggable_a (v : string) : bool :=
  bool_decide (v = "button_a").

(** ** The monad's equations *)

Lemma bind_run {S A B} (m : Py S A) (f : A → Py S B) (s : S) :
  (m ≫= f) s =
  match m s with
  | (Return a, s') => f a s'
  | (Raise e, s') => (Raise e, s')
  end.
Proof. reflexivity. Qed.

Lemma bind_return {S A B} (m : Py S A) (f : A → Py S B) (s s' : S) (a : A) :
  m s = (Return a, s') → (m ≫= f) s = f a s'.
Proof. intros Hm. rewrite bind_run, Hm. reflexivity. Qed.

Lemma bind_raise {S A B} (m : Py S A) (f : A → Py S B) (s s' : S) (e : exn) :
  m s = (Raise e, s') → (m ≫= f) s = (Raise e, s').
Proof. intros Hm. rewrite bind_run, Hm. reflexivity. Qed.

(** Unfolds the monad's operations in a run on a given state. *)
Ltac run_py :=
  repeat (unfold mbind, Py_bind, mret, Py_ret, get_state, put_state, lift,
            raise, getitem; simpl).

(** A loop whose body only reads the state is a left fold. *)
Lemma for_each_pure {S A B} (g : S → A → B → A) (body : A → B → Py S A)
    (xs : list B) (acc : A) (s : S) :
  (∀ a x, body a x s = (Return (g s a x), s)) →
  for_each xs acc body s = (Return (foldl (g s) acc xs), s).
Proof.
  intros Hbody. revert acc.
  induction xs as [|x xs IH]; intros acc; simpl; [reflexivity|].
  rewrite (bind_return _ _ _ _ _ (Hbody acc x)). apply IH.
Qed.

(** A loop whose body only writes the state is a left fold over it. *)
Lemma for_each_write {S B} (P : S → Prop) (g : S → B → S)
    (body : unit → B → Py S unit) (xs : list B) (s : S) :
  (∀ x s, P s → body tt x s = (Return tt, g s x) ∧ P (g s x)) →
  P s →
  for_each xs tt body s = (Return tt, foldl g s xs).
Proof.
  intros Hbody. revert s.
  induction xs as [|x xs IH]; intros s Hs; simpl; [reflexivity|].
  destruct (Hbody x s Hs) as [Hrun Hnext].
  rewrite (bind_return _ _ _ _ _ Hrun). by apply IH.
Qed.

(** ** The class walk *)

Lemma collect_classes_head klass base_name classes :
  collect_classes klass base_name = Return classes →
  ∃ ancestors, classes = klass :: ancestors.
Proof.
  destruct klass as [name bases]. simpl.
  destruct (decide (name = base_name)); [intros [= <-]; by eexists|].
  destruct bases as [|parent rest]; [done|].
  destruct (collect_classes parent base_name); [|done].
  intros [= <-]. by eexists.
Qed.

(** The walk succeeds exactly when the chain of first parents reaches a
    class named [base_name], and fails with [IndexError] otherwise. *)
Lemma collect_classes_reaches klass base_name :
  match collect_classes klass base_name with
  | Return _ => reaches klass base_name = true
  | Raise e => reaches klass base_name = false ∧ e = IndexError
  end.
Proof.
  unfold reaches.
  induction klass as [name|name parent rest IH] using pyclass_first_ind; simpl.
  - destruct (decide (name = base_name)).
    + by rewrite bool_decide_eq_true_2.
    + by rewrite bool_decide_eq_false_2.
  - destruct (decide (name = base_name)).
    + by rewrite bool_decide_eq_true_2.
    + rewrite bool_decide_eq_false_2 by done. simpl.
      destruct (collect_classes parent base_name); exact IH.
Qed.

Lemma collect_classes_total klass base_name :
  reaches klass base_name = true →
  ∃ classes, collect_classes klass base_name = Return classes.
Proof.
  intros Hr. pose proof (collect_classes_reaches klass base_name) as H.
  destruct (collect_classes klass base_name) as [classes|e]; [by eexists|].
  destruct H as [H _]. congruence.
Qed.

Lemma collect_classes_fails klass base_name :
  reaches klass base_name = false →
  collect_classes klass base_name = Raise IndexError.
Proof.
  intros Hr. pose proof (collect_classes_reaches klass base_name) as H.
  destruct (collect_classes klass base_name) as [classes|e].
  - congruence.
  - destruct H as [_ ->]. reflexivity.
Qed.

(** ** Sorting *)

Lemma ltb_neq (a b : string) : String.ltb a b = true → a ≠ b.
Proof.
  unfold String.ltb. intros Hlt ->.
  pose proof (String.compare_antisym b b) as Hanti.
  destruct (String.compare b b); done.
Qed.

Lemma ltb_asym (a b : string) :
  String.ltb a b = true → String.ltb b a = false.
Proof.
  unfold String.ltb. rewrite (String.compare_antisym b a).
  destruct (String.compare a b); done.
Qed.

(** [sorted] is what a stable sort by key returns: the same elements, in
    key order, those of equal key in the order they came. *)
Section sorting_facts.
Context {A : Type} (key : A → string).

Lemma insert_sorted_Permutation (x : A) (xs : list A) :
  insert_sorted key x xs ≡ₚ x :: xs.
Proof.
  induction xs as [|y xs IH]; simpl; [reflexivity|].
  destruct (String.ltb (key y) (key x)); [|reflexivity].
  rewrite IH. apply Permutation_swap.
Qed.

Lemma sorted_Permutation (xs : list A) : sorted key xs ≡ₚ xs.
Proof.
  induction xs as [|x xs IH]; simpl; [reflexivity|].
  by rewrite insert_sorted_Permutation, IH.
Qed.

Lemma insert_sorted_filter (s : string) (x : A) (xs : list A) :
  filter (λ y, key y = s) (insert_sorted key x xs)
  = filter (λ y, key y = s) (x :: xs).
Proof.
  induction xs as [|y xs IH]; simpl; [reflexivity|].
  destruct (String.ltb (key y) (key x)) eqn:Hlt; [|reflexivity].
  apply ltb_neq in Hlt.
  rewrite (filter_cons _ y), IH, !filter_cons.
  destruct (decide (key y = s)), (decide (key x = s)); congruence.
Qed.

Lemma sorted_stable (s : string) (xs : list A) :
  filter (λ y, key y = s) (sorted key xs) = filter (λ y, key y = s) xs.
Proof.
  induction xs as [|x xs IH]; simpl; [reflexivity|].
  by rewrite insert_sorted_filter, !filter_cons, IH.
Qed.

Lemma insert_sorted_ordered (x : A) (xs : list A) :
  Sorted (λ a b, String.ltb (key b) (key a) = false) xs →
  Sorted (λ a b, String.ltb (key b) (key a) = false)
         (insert_sorted key x xs).
Proof.
  induction 1 as [|y xs Hsorted IH Hhd]; simpl; [by repeat constructor|].
  destruct (String.ltb (key y) (key x)) eqn:Hlt.
  - constructor; [exact IH|].
    destruct Hhd as [|z zs Hyz]; simpl.
    + constructor. by apply ltb_asym.
    + destruct (String.ltb (key z) (key x)); constructor;
        [exact Hyz|by apply ltb_asym].
  - constructor; [by constructor|]. by constructor.
Qed.

Lemma sorted_ordered (xs : list A) :
  Sorted (λ a b, String.ltb (key b) (key a) = false) (sorted key xs).
Proof.
  induction xs as [|x xs IH]; simpl; [constructor|].
  by apply insert_sorted_ordered.
Qed.

End sorting_facts.

(** ** The resolver *)

Section theme_facts.
Context {V : Type}.
Implicit Types (styles : gmap string (gmap string (gmap string V))).
Implicit Types (style : gmap string V) (k : string) (v : V).

Lemma styles_or_empty_run styles class_name state :
  styles_or_empty class_name state styles
  = (Return (style_cell styles class_name state), styles).
Proof.
  unfold styles_or_empty, try_except, style_cell.
  rewrite !bind_run. unfold get_state, lift, getitem. simpl.
  destruct (styles !! class_name) as [by_state|]; simpl; [|reflexivity].
  destruct (by_state !! state); reflexivity.
Qed.

Lemma style_cell_lookup styles class_name state k :
  style_cell styles class_name state !! k = entry styles class_name state k.
Proof.
  unfold style_cell, entry.
  destruct (styles !! class_name) as [by_state|]; simpl; [|apply lookup_empty].
  destruct (by_state !! state); simpl; [reflexivity|apply lookup_empty].
Qed.

(** A class's own state entries win over its own normal entries. *)
Lemma class_layer_lookup styles state class_name k :
  class_layer styles state class_name !! k =
  match entry styles class_name state k with
  | Some v => Some v
  | None => entry styles class_name "normal" k
  end.
Proof.
  unfold class_layer, dict_chain.
  destruct (decide (state ≠ "normal")) as [Hne|Heq].
  - rewrite lookup_union, !style_cell_lookup.
    destruct (entry styles class_name state k),
      (entry styles class_name "normal" k); reflexivity.
  - apply dec_stable in Heq. subst state. rewrite style_cell_lookup.
    destruct (entry styles class_name "normal" k); reflexivity.
Qed.

Lemma get_dict_for_class_run styles class_name state base_name :
  get_dict_for_class class_name state base_name styles =
  (match collect_classes class_name base_name with
   | Return classes =>
     Return (merge_layers styles (default "normal" state) classes ∅)
   | Raise e => Raise e
   end, styles).
Proof.
  unfold get_dict_for_class. rewrite bind_run. unfold lift.
  destruct (collect_classes class_name base_name) as [classes|e];
    [|reflexivity].
  replace (match state with Some s => s | None => "normal" end)
    with (default "normal" state) by (by destruct state).
  apply (for_each_pure (λ styles style klass,
    dict_chain (class_layer styles (default "normal" state) (__name__ klass))
               style)).
  intros style klass.
  rewrite (bind_return _ _ _ _ _ (styles_or_empty_run _ _ _)).
  unfold class_layer.
  destruct (decide (default "normal" state ≠ "normal")); [|reflexivity].
  rewrite bind_run, (bind_return _ _ _ _ _ (styles_or_empty_run _ _ _)).
  reflexivity.
Qed.

(** What is already in the accumulator is never overwritten. *)
Lemma merge_layers_keeps styles state classes style k v :
  style !! k = Some v →
  merge_layers styles state classes style !! k = Some v.
Proof.
  revert style. induction classes as [|klass classes IH]; intros style Hk;
    [exact Hk|].
  simpl. apply IH. unfold dict_chain. by apply lookup_union_Some_l.
Qed.

Lemma merge_layers_absent styles state classes style k :
  style !! k = None →
  (∀ klass, klass ∈ classes →
     class_layer styles state (__name__ klass) !! k = None) →
  merge_layers styles state classes style !! k = None.
Proof.
  revert style. induction classes as [|klass classes IH]; intros style Hk Hall;
    [exact Hk|].
  simpl. apply IH.
  - unfold dict_chain. apply lookup_union_None. split; [exact Hk|].
    apply Hall. left.
  - intros c Hc. apply Hall. by right.
Qed.

(** The first class of the walk decides every key it has. *)
Lemma merge_layers_first styles state klass classes k v :
  class_layer styles state (__name__ klass) !! k = Some v →
  merge_layers styles state (klass :: classes) ∅ !! k = Some v.
Proof.
  intros Hk. simpl. apply merge_layers_keeps.
  unfold dict_chain. by rewrite lookup_union_r by apply lookup_empty.
Qed.

(** C1. Precedence along the class chain: when the walk from [leaf]
    reaches the base class and a key is defined for the queried state both
    on [leaf] and on an ancestor of the chain, [get_dict_for_class] returns
    a map that gives the key the value of [leaf]. *)
Theorem get_dict_for_class_leaf_wins styles leaf state base_name classes
    ancestor k vleaf vanc :
  collect_classes leaf base_name = Return classes →
  ancestor ∈ classes →
  entry styles (__name__ leaf) (default "normal" state) k = Some vleaf →
  entry styles (__name__ ancestor) (default "normal" state) k = Some vanc →
  ∃ style,
    get_dict_for_class leaf state base_name styles = (Return style, styles)
    ∧ style !! k = Some vleaf.
Proof.
  intros Hwalk _ Hleaf _.
  rewrite get_dict_for_class_run, Hwalk.
  eexists; split; [reflexivity|].
  destruct (collect_classes_head _ _ _ Hwalk) as [ancestors ->].
  apply merge_layers_first. by rewrite class_layer_lookup, Hleaf.
Qed.

(** C2. State underlay: for a class [C] whose chain of first parents
    reaches the base class, a key defined for [C] only under 'normal' is
    given its 'normal' value by [get_dict_for_class(C, 'focused')], and a
    key defined for [C] under both 'normal' and 'focused' is given its
    'focused' value. *)
Theorem get_dict_for_class_normal_underlay styles C base_name k :
  reaches C base_name = true →
  ∃ style,
    get_dict_for_class C (Some "focused") base_name styles
      = (Return style, styles)
    ∧ (∀ v, entry styles (__name__ C) "normal" k = Some v →
            entry styles (__name__ C) "focused" k = None →
            style !! k = Some v)
    ∧ (∀ vn vf, entry styles (__name__ C) "normal" k = Some vn →
                entry styles (__name__ C) "focused" k = Some vf →
                style !! k = Some vf).
Proof.
  intros Hreach.
  destruct (collect_classes_total _ _ Hreach) as [classes Hwalk].
  rewrite get_dict_for_class_run, Hwalk.
  change (default "normal" (Some "focused")) with "focused".
  eexists; split; [reflexivity|].
  destruct (collect_classes_head _ _ _ Hwalk) as [ancestors ->].
  split.
  - intros v Hn Hf. apply merge_layers_first.
    by rewrite class_layer_lookup, Hf.
  - intros vn vf _ Hf. apply merge_layers_first.
    by rewrite class_layer_lookup, Hf.
Qed.

(** C5 as the code has it: when the chain of first parents never reaches a
    class named [base_name], [get_dict_for_class] raises [IndexError], the
    error of [klass.__bases__[0]] on a class without bases, and leaves the
    theme as it was. *)
Theorem get_dict_for_class_unreached_IndexError styles klass state base_name :
  reaches klass base_name = false →
  get_dict_for_class klass state base_name styles = (Raise IndexError, styles).
Proof.
  intros Hr. rewrite get_dict_for_class_run.
  by rewrite (collect_classes_fails _ _ Hr).
Qed.

(** C7. Purity: [get_dict_for_class] leaves [_styles] unchanged, and a
    second call with the same arguments returns what the first did. *)
Theorem get_dict_for_class_pure styles class_name state base_name :
  state_of (get_dict_for_class class_name state base_name styles) = styles
  ∧ get_dict_for_class class_name state base_name
      (state_of (get_dict_for_class class_name state base_name styles))
    = get_dict_for_class class_name state base_name styles.
Proof.
  assert (state_of (get_dict_for_class class_name state base_name styles)
          = styles) as Hsame by (by rewrite get_dict_for_class_run).
  split; [exact Hsame|]. by rewrite Hsame.
Qed.

(** C8. Absence: when the walk reaches the base class and a key is defined
    for no class of the chain, neither under the queried state nor under
    'normal', the returned map has no entry for it and [get_value] returns
    the caller's default. *)
Theorem get_value_absent_default styles leaf state base_name classes k
    default_value :
  collect_classes leaf base_name = Return classes →
  (∀ klass, klass ∈ classes →
     entry styles (__name__ klass) (default "normal" state) k = None
     ∧ entry styles (__name__ klass) "normal" k = None) →
  (∃ style,
     get_dict_for_class leaf state base_name styles = (Return style, styles)
     ∧ style !! k = None)
  ∧ get_value leaf k default_value state base_name styles
    = (Return default_value, styles).
Proof.
  intros Hwalk Habsent.
  assert (merge_layers styles (default "normal" state) classes ∅ !! k = None)
    as Hnone.
  { apply merge_layers_absent; [apply lookup_empty|].
    intros klass Hin. destruct (Habsent klass Hin) as [Hs Hn].
    by rewrite class_layer_lookup, Hs. }
  split.
  - rewrite get_dict_for_class_run, Hwalk. by eexists.
  - unfold get_value. rewrite bind_run, get_dict_for_class_run, Hwalk.
    unfold try_except, lift, getitem. by rewrite Hnone.
Qed.

(** C10. [get_dict] never looks at its [state] argument: two calls that
    differ only there agree, and both are the lookup under [obj.state]. *)
Theorem get_dict_ignores_state styles obj s1 s2 base_name :
  get_dict obj s1 base_name styles = get_dict obj s2 base_name styles
  ∧ get_dict obj s1 base_name styles
    = get_dict_for_class (__class__ obj) (obj_state obj) base_name styles.
Proof. split; reflexivity. Qed.

(** ** Writing the table *)

Lemma setitem3_run styles class_name state key value by_state cell :
  styles !! class_name = Some by_state →
  by_state !! state = Some cell →
  setitem3 class_name state key value styles
  = (Return tt,
     <[class_name := <[state := <[key := value]> cell]> by_state]> styles).
Proof.
  intros Hc Hs. unfold setitem3. run_py.
  rewrite Hc. run_py. rewrite Hs. reflexivity.
Qed.

Lemma set_run styles class_name state key value :
  set class_name state key value styles
  = (Return tt, write class_name styles (state, key, value)).
Proof.
  unfold set, write, setdefault. rewrite bind_run. unfold get_state.
  destruct (styles !! class_name) as [by_state|] eqn:Hc; simpl.
  - destruct (by_state !! state) as [cell|] eqn:Hs; simpl.
    + rewrite bind_run. unfold put_state.
      rewrite (setitem3_run _ _ _ _ _ by_state cell)
        by (by rewrite ?lookup_insert_eq).
      by rewrite insert_insert_eq.
    + rewrite bind_run. unfold put_state.
      rewrite (setitem3_run _ _ _ _ _ (<[state := ∅]> by_state) ∅)
        by (by rewrite ?lookup_insert_eq).
      by rewrite !insert_insert_eq.
  - rewrite lookup_empty. simpl. rewrite bind_run. unfold put_state.
    rewrite (setitem3_run _ _ _ _ _ (<[state := ∅]> ∅) ∅)
      by (by rewrite ?lookup_insert_eq).
    by rewrite !insert_insert_eq.
Qed.

Lemma write_is_Some class_name styles param :
  is_Some (write class_name styles param !! class_name).
Proof.
  destruct param as [[state key] value]. unfold write.
  rewrite lookup_insert_eq. by eexists.
Qed.

(** One turn of the loop of [set_for_class], once the class has its
    dictionary. *)
Lemma set_for_class_turn styles class_name state key value :
  is_Some (styles !! class_name) →
  (styles' ← get_state;
   by_state ← lift (getitem styles' class_name);
   put_state (<[class_name := (setdefault by_state state ∅).1]> styles');;
   setitem3 class_name state key value) styles
  = (Return tt, write class_name styles (state, key, value)).
Proof.
  intros [by_state Hc]. unfold write, setdefault. run_py.
  rewrite Hc. run_py.
  destruct (by_state !! state) as [cell|] eqn:Hs; run_py.
  - rewrite (setitem3_run _ _ _ _ _ by_state cell)
      by (by rewrite ?lookup_insert_eq).
    by rewrite insert_insert_eq.
  - rewrite (setitem3_run _ _ _ _ _ (<[state := ∅]> by_state) ∅)
      by (by rewrite ?lookup_insert_eq).
    by rewrite !insert_insert_eq.
Qed.

Lemma set_each_run styles class_name params :
  set_each class_name params styles
  = (Return tt, foldl (write class_name) styles params).
Proof.
  unfold set_each.
  apply (for_each_write (λ _, True)); [|done].
  intros [[state key] value] s _. split; [apply set_run|done].
Qed.

Lemma set_for_class_run styles class_name params :
  set_for_class class_name params styles
  = (Return tt,
     foldl (write class_name) (setdefault styles class_name ∅).1
           (sorted (λ x, x.1.1) params)).
Proof.
  unfold set_for_class. rewrite !bind_run. unfold get_state, put_state.
  apply (for_each_write (λ s, is_Some (s !! class_name))).
  - intros [[state key] value] s Hs. split.
    + by apply set_for_class_turn.
    + apply write_is_Some.
  - unfold setdefault.
    destruct (styles !! class_name) eqn:Hc; simpl; [by rewrite Hc|].
    rewrite lookup_insert_eq. by eexists.
Qed.

(** Tuples of different states write to different cells. *)
Lemma write_commute class_name styles p q :
  p.1.1 ≠ q.1.1 →
  write class_name (write class_name styles p) q
  = write class_name (write class_name styles q) p.
Proof.
  destruct p as [[s1 k1] v1], q as [[s2 k2] v2]. simpl. intros Hne.
  unfold write. rewrite !lookup_insert_eq. simpl.
  rewrite !lookup_insert_ne by done. rewrite !insert_insert_eq.
  f_equal. by apply insert_insert_ne.
Qed.

(** The class's dictionary made in advance changes nothing once a tuple
    is written. *)
Lemma write_setdefault class_name styles p :
  write class_name (setdefault styles class_name ∅).1 p
  = write class_name styles p.
Proof.
  destruct p as [[state key] value]. unfold write, setdefault.
  destruct (styles !! class_name) eqn:Hc; simpl; [by rewrite Hc|].
  rewrite lookup_insert_eq. simpl. by rewrite insert_insert_eq.
Qed.

Lemma foldl_write_insert_sorted class_name styles p params :
  foldl (write class_name) styles (insert_sorted (λ x, x.1.1) p params)
  = foldl (write class_name) styles (p :: params).
Proof.
  revert styles. induction params as [|q params IH]; intros styles;
    [reflexivity|].
  simpl. destruct (String.ltb q.1.1 p.1.1) eqn:Hlt; [|reflexivity].
  simpl. rewrite IH. simpl. f_equal.
  apply write_commute. by apply ltb_neq.
Qed.

(** Sorting by state does not change the table the writes leave. *)
Lemma foldl_write_sorted class_name styles params :
  foldl (write class_name) styles (sorted (λ x, x.1.1) params)
  = foldl (write class_name) styles params.
Proof.
  revert styles. induction params as [|p params IH]; intros styles;
    [reflexivity|].
  simpl. rewrite foldl_write_insert_sorted. simpl. apply IH.
Qed.

(** C9 as the code has it: [set_for_class] leaves the table that one
    [set] per tuple, in the order of the list, leaves when started on the
    table in which [class_name] already has its (possibly empty)
    dictionary; for a list that is not empty this is the table that the
    [set] calls leave when started on the table itself. *)
Theorem set_for_class_as_set_each styles class_name params :
  set_for_class class_name params styles
  = set_each class_name params (setdefault styles class_name ∅).1
  ∧ (params ≠ [] →
     set_for_class class_name params styles
     = set_each class_name params styles).
Proof.
  rewrite set_for_class_run, !set_each_run, foldl_write_sorted.
  split; [reflexivity|].
  destruct params as [|p params]; [done|]. intros _. simpl.
  by rewrite write_setdefault.
Qed.

End theme_facts.

(** ** The dispatcher *)

Section dispatch_facts.
Context {view theme : Type} `{EqDecision view}.
Context (hit : view → point → option view).
Context (from_window : view → point → point).
Context (isinstance_Scene : view → bool).
Context (draggable : view → bool).
Implicit Types (m : @modules view theme) (v root : view).

Lemma after_nil m : after m (focus_view m) [] = m.
Proof. destruct m. unfold after. simpl. by rewrite app_nil_r. Qed.

Lemma after_after m fv cs fv' cs' :
  after (after m fv cs) fv' cs' = after m fv' (cs ++ cs').
Proof. unfold after. simpl. by rewrite app_assoc. Qed.

Lemma invoke_run (c : call) m :
  invoke c m = (Return tt, after m (focus_view m) [c]).
Proof. reflexivity. Qed.

Lemma focus_set_run new_focus m :
  focus_set new_focus m
  = (Return tt,
     after m new_focus (focus_notifications (focus_view m) new_focus)).
Proof.
  unfold focus_set, focus_notifications. run_py.
  destruct (decide (focus_view m = new_focus)) as [<-|Hne].
  - by rewrite after_nil.
  - destruct m as [st cur [old|] tc tcv cs], new_focus as [v|];
      unfold after, invoke, modify, with_call, with_focus_view; simpl;
      rewrite <-?app_assoc, ?app_nil_r; reflexivity.
Qed.

Lemma current_root_run m root :
  view_current m = Some root → current_root m = (Return root, m).
Proof. intros Hc. unfold current_root. run_py. by rewrite Hc. Qed.

Lemma focus_notifications_no_press (old new : option view) :
  Forall (λ c, is_mouse_down c = false) (focus_notifications old new).
Proof.
  unfold focus_notifications.
  destruct (decide (old = new)), old, new; repeat constructor.
Qed.

(** C4. A pointer-down whose hit view exists and is no [Scene] makes that
    view the focused view and the pressed view and calls its [mouse_down]
    with the button and the point in its own coordinates, after the focus
    notifications; any other pointer-down clears the focus, keeps the
    pressed view and calls no [mouse_down]. *)
Theorem pointer_down_dispatch e mousepoint down_in_view m root :
  e_type e = MOUSEBUTTONDOWN →
  view_current m = Some root →
  ∃ down' m',
    handle_event hit from_window isinstance_Scene draggable
                 e mousepoint down_in_view m = (Return down', m')
    ∧ let cleared :=
        focus_view m' = None
        ∧ ∃ cs, calls m' = calls m ++ cs
                ∧ Forall (λ c, is_mouse_down c = false) cs in
      match hit root mousepoint with
      | Some hv =>
        if isinstance_Scene hv then cleared
        else down' = Some hv
             ∧ focus_view m' = Some hv
             ∧ calls m' = calls m
                 ++ focus_notifications (focus_view m) (Some hv)
                 ++ [mouse_down hv (e_button e) (from_window hv mousepoint)]
      | None => cleared
      end.
Proof.
  intros He Hroot. unfold handle_event. rewrite He.
  rewrite (bind_return _ _ _ _ _ (current_root_run _ _ Hroot)).
  destruct (hit root mousepoint) as [hv|]; [destruct (isinstance_Scene hv)|];
    simpl.
  - rewrite (bind_return _ _ _ _ _ (focus_set_run _ _)).
    do 2 eexists. split; [reflexivity|]. split; [reflexivity|].
    eexists. split; [reflexivity|]. apply focus_notifications_no_press.
  - rewrite (bind_return _ _ _ _ _ (focus_set_run _ _)).
    rewrite (bind_return _ _ _ _ _ (invoke_run _ _)).
    do 2 eexists. split; [reflexivity|]. simpl.
    by rewrite <-app_assoc.
  - rewrite (bind_return _ _ _ _ _ (focus_set_run _ _)).
    do 2 eexists. split; [reflexivity|]. split; [reflexivity|].
    eexists. split; [reflexivity|]. apply focus_notifications_no_press.
Qed.

(** C3 as the code has it: a pointer-up always clears the pressed view,
    whether or not a view is hit.  When [A] is the pressed view and the
    release hits [B] with [B ≠ A], the loop calls [A.blurred()] once, then
    [focus.set(None)], then [B.mouse_up] with the button and the point in
    the coordinates of [B].  The focus is none afterwards, [A] gets no
    [mouse_up], and [A] is notified of the blur once by the loop and once
    more by [focus.set] when it still holds the focus: once or twice in
    all. *)
Theorem pointer_up_dispatch e mousepoint down_in_view m root :
  e_type e = MOUSEBUTTONUP →
  view_current m = Some root →
  ∃ m',
    handle_event hit from_window isinstance_Scene draggable
                 e mousepoint down_in_view m = (Return None, m')
    ∧ ∀ A B, down_in_view = Some A → hit root mousepoint = Some B → B ≠ A →
        focus_view m' = None
        ∧ ∃ cs, calls m' = calls m ++ cs
            ∧ cs = [blurred A]
                   ++ focus_notifications (focus_view m) None
                   ++ [mouse_up B (e_button e) (from_window B mousepoint)]
            ∧ filter (λ c, is_mouse_up_of A c = true) cs = []
            ∧ length (filter (λ c, is_blurred_of A c = true) cs)
              = if decide (focus_view m = Some A) then 2 else 1.
Proof.
  intros He Hroot. unfold handle_event. rewrite He.
  rewrite (bind_return _ _ _ _ _ (current_root_run _ _ Hroot)).
  destruct (hit root mousepoint) as [hv|]; simpl.
  2:{ run_py. eexists. split; [reflexivity|]. intros A B _ [=]. }
  destruct down_in_view as [dv|]; simpl.
  2:{ run_py. eexists. split; [reflexivity|]. intros A B [=]. }
  destruct (decide (hv ≠ dv)) as [Hne|Heq].
  2:{ run_py. eexists. split; [reflexivity|].
      intros A B [= <-] [= <-] Hne. by destruct Heq. }
  rewrite !bind_run, invoke_run, focus_set_run, invoke_run. simpl.
  eexists. split; [reflexivity|].
  intros A B [= <-] [= <-] _. simpl. split; [reflexivity|].
  eexists. split; [by rewrite <-!app_assoc|]. split; [reflexivity|].
  unfold focus_notifications.
  assert (bool_decide (hv = dv) = false) as Hhv
    by (by apply bool_decide_eq_false_2).
  assert (bool_decide (dv = dv) = true) as Hdv
    by (by apply bool_decide_eq_true_2).
  destruct (decide (focus_view m = Some dv)) as [->|Hf].
  - simpl. rewrite !filter_cons, !filter_nil. simpl. rewrite Hhv, Hdv.
    split; reflexivity.
  - destruct (focus_view m) as [old|]; simpl;
      rewrite !filter_cons, !filter_nil; simpl; rewrite Hhv, Hdv.
    + rewrite (bool_decide_eq_false_2 (old = dv)) by congruence.
      split; reflexivity.
    + split; reflexivity.
Qed.

(** ** Theme activation *)

Lemma use_theme_run (t : theme) m :
  use_theme t m
  = (Return tt,
     match theme_current_view m with
     | Some v => with_call (stylize v) (with_theme_current (Some t) m)
     | None => with_theme_current (Some t) m
     end).
Proof.
  unfold use_theme. run_py. unfold modify. simpl.
  destruct (theme_current_view m); reflexivity.
Qed.

(** [use_theme] looks at the name bound when theme.py was imported, not
    at [view.current]: with that name bound to [None], no view is
    stylized, whatever the current root. *)
Lemma use_theme_stale (t : theme) m :
  theme_current_view m = None →
  use_theme t m = (Return tt, with_theme_current (Some t) m).
Proof. intros Hnone. by rewrite use_theme_run, Hnone. Qed.

(** Nothing the modelled code does after the import rebinds
    [theme.current_view]. *)
Lemma keeps_bind {A B} (c : Py (@modules view theme) A)
    (f : A → Py (@modules view theme) B) :
  keeps_current_view c → (∀ a, keeps_current_view (f a)) →
  keeps_current_view (c ≫= f).
Proof.
  intros Hc Hf m. rewrite bind_run. specialize (Hc m).
  destruct (c m) as [[a|e] m1]; simpl in *; [|exact Hc].
  by rewrite Hf.
Qed.

Lemma keeps_ret {A} (a : A) :
  keeps_current_view (mret a : Py (@modules view theme) A).
Proof. by intros m. Qed.

Lemma keeps_raise {A} (e : exn) :
  keeps_current_view (raise e : Py (@modules view theme) A).
Proof. by intros m. Qed.

Lemma keeps_get_state :
  keeps_current_view (get_state : Py (@modules view theme) _).
Proof. by intros m. Qed.

Lemma keeps_invoke (c : call) :
  keeps_current_view (invoke c : Py (@modules view theme) _).
Proof. by intros m. Qed.

Lemma keeps_current_root :
  keeps_current_view (current_root : Py (@modules view theme) _).
Proof.
  intros m. unfold current_root. run_py. by destruct (view_current m).
Qed.

Lemma keeps_focus_set new_focus :
  keeps_current_view (focus_set new_focus : Py (@modules view theme) _).
Proof. intros m. by rewrite focus_set_run. Qed.

Lemma keeps_view_push scene :
  keeps_current_view (view_push scene : Py (@modules view theme) _).
Proof. by intros m. Qed.

Lemma keeps_use_theme (t : theme) :
  keeps_current_view (use_theme t : Py (@modules view theme) _).
Proof.
  intros m. rewrite use_theme_run.
  destruct (theme_current_view m) eqn:Hcv; exact Hcv.
Qed.

Lemma keeps_handle_event e mousepoint down_in_view :
  keeps_current_view
    (handle_event hit from_window isinstance_Scene draggable
                  e mousepoint down_in_view : Py (@modules view theme) _).
Proof.
  unfold handle_event.
  destruct (e_type e);
    repeat first
      [ apply keeps_ret | apply keeps_raise | apply keeps_get_state
      | apply keeps_invoke | apply keeps_current_root | apply keeps_focus_set
      | apply keeps_bind; [|intros ?]
      | match goal with
        | |- keeps_current_view (match ?x with _ => _ end) => destruct x
        | |- keeps_current_view (if ?x then _ else _) => destruct x
        end ].
Qed.

Lemma keeps_handle_events events down_in_view :
  keeps_current_view
    (handle_events hit from_window isinstance_Scene draggable
                   events down_in_view : Py (@modules view theme) _).
Proof.
  unfold handle_events. revert down_in_view.
  induction events as [|[e mousepoint] events IH]; intros down_in_view;
    simpl; [apply keeps_ret|].
  apply keeps_bind; [apply keeps_handle_event|exact IH].
Qed.

End dispatch_facts.

(** ** The theorems at work on the example theme *)

Example demo_styles_padding :
  entry demo_styles "View" "normal" "padding" = Some "(0, 0)"
  ∧ entry demo_styles "AlertView" "normal" "padding" = Some "(6, 6)".
Proof. split; vm_compute; reflexivity. Qed.

(** [AlertView] overrides the padding of [View]. *)
Lemma get_dict_for_class_leaf_wins_demo :
  ∃ style,
    get_dict_for_class AlertView None "View" demo_styles
      = (Return style, demo_styles)
    ∧ style !! "padding" = Some "(6, 6)".
Proof.
  apply (get_dict_for_class_leaf_wins demo_styles AlertView None "View"
           [AlertView; DialogView; View] View "padding" "(6, 6)" "(0, 0)").
  - reflexivity.
  - repeat constructor.
  - vm_compute; reflexivity.
  - vm_compute; reflexivity.
Defined.

(** A focused [View]: the border widths come from 'normal', the
    background colour from 'focused'. *)
Lemma get_dict_for_class_normal_underlay_demo :
  ∃ style,
    get_dict_for_class View (Some "focused") "View" demo_styles
      = (Return style, demo_styles)
    ∧ (∀ v, entry demo_styles "View" "normal" "border_widths" = Some v →
            entry demo_styles "View" "focused" "border_widths" = None →
            style !! "border_widths" = Some v)
    ∧ (∀ vn vf, entry demo_styles "View" "normal" "border_widths" = Some vn →
                entry demo_styles "View" "focused" "border_widths" = Some vf →
                style !! "border_widths" = Some vf).
Proof.
  apply (get_dict_for_class_normal_underlay demo_styles View "View"
           "border_widths").
  reflexivity.
Defined.

Example focused_View_resolved :
  ∃ style,
    result_of (get_dict_for_class View (Some "focused") "View" demo_styles)
      = Return style
    ∧ style !! "border_widths" = Some "0"
    ∧ style !! "background_color" = Some "yellow".
Proof. eexists. split; [reflexivity|]. split; vm_compute; reflexivity. Qed.

(** The claim of C5 fails on a class that is no view: the error is an
    [IndexError], not a ConfigurationError. *)
Lemma get_dict_for_class_no_ConfigurationError :
  reaches Sprite "View" = false
  ∧ ¬ ∃ e, result_of (get_dict_for_class (V:=string) Sprite None "View" ∅)
           = Raise e
         ∧ exn_name e = "ConfigurationError".
Proof.
  split; [reflexivity|]. intros (e & Hres & Hname).
  vm_compute in Hres. injection Hres as <-. discriminate Hname.
Qed.

Lemma get_dict_for_class_unreached_IndexError_demo :
  get_dict_for_class Sprite None "View" demo_styles
  = (Raise IndexError, demo_styles).
Proof.
  apply (get_dict_for_class_unreached_IndexError demo_styles Sprite None
           "View").
  reflexivity.
Defined.

(** No class of the chain of [AlertView] defines a hole colour. *)
Lemma get_value_absent_default_demo :
  (∃ style,
     get_dict_for_class AlertView (Some "focused") "View" demo_styles
       = (Return style, demo_styles)
     ∧ style !! "hole_color" = None)
  ∧ get_value AlertView "hole_color" "none" (Some "focused") "View"
      demo_styles
    = (Return "none", demo_styles).
Proof.
  apply (get_value_absent_default demo_styles AlertView (Some "focused")
           "View" [AlertView; DialogView; View] "hole_color" "none").
  - reflexivity.
  - intros klass Hin. apply list_elem_of_In in Hin. simpl in Hin.
    destruct Hin as [<-|[<-|[<-|[]]]]; split; vm_compute; reflexivity.
Defined.

(** The claim of C9 fails on the empty list: [set_for_class] leaves an
    empty dictionary for the class, no call of [set] leaves none. *)
Lemma set_for_class_empty_params :
  state_of (set_for_class (V:=string) "Button" [] ∅) !! "Button" = Some ∅
  ∧ state_of (set_each (V:=string) "Button" [] ∅) !! "Button" = None
  ∧ state_of (set_for_class (V:=string) "Button" [] ∅)
    ≠ state_of (set_each (V:=string) "Button" [] ∅).
Proof.
  assert (state_of (set_for_class (V:=string) "Button" [] ∅) !! "Button"
          = Some ∅) as Hfor by (vm_compute; reflexivity).
  assert (state_of (set_each (V:=string) "Button" [] ∅) !! "Button" = None)
    as Heach by (vm_compute; reflexivity).
  split; [exact Hfor|]. split; [exact Heach|].
  intros Heq. rewrite Heq, Heach in Hfor. discriminate Hfor.
Qed.

Lemma set_for_class_as_set_each_demo :
  set_for_class "View"
    [ ("normal", "background_color", "white");
      ("focused", "background_color", "yellow");
      ("normal", "border_widths", "0");
      ("normal", "background_color", "gray") ] ∅
  = set_each "View"
    [ ("normal", "background_color", "white");
      ("focused", "background_color", "yellow");
      ("normal", "border_widths", "0");
      ("normal", "background_color", "gray") ] ∅.
Proof.
  apply (set_for_class_as_set_each (V:=string) ∅ "View").
  discriminate.
Defined.

(** ** The theorems at work on the example scene *)

Lemma pointer_down_dispatch_demo :
  ∃ down' m',
    handle_event demo_hit demo_from_window demo_isinstance_Scene
                 demo_draggable press (10, 10)%Z None scene_pushed
    = (Return down', m')
    ∧ let cleared :=
        focus_view m' = None
        ∧ ∃ cs, calls m' = calls scene_pushed ++ cs
                ∧ Forall (λ c, is_mouse_down c = false) cs in
      match demo_hit "scene" (10, 10)%Z with
      | Some hv =>
        if demo_isinstance_Scene hv then cleared
        else down' = Some hv
             ∧ focus_view m' = Some hv
             ∧ calls m' = calls scene_pushed
                 ++ focus_notifications (focus_view scene_pushed) (Some hv)
                 ++ [mouse_down hv (e_button press)
                                (demo_from_window hv (10, 10)%Z)]
      | None => cleared
      end.
Proof.
  apply (pointer_down_dispatch demo_hit demo_from_window
           demo_isinstance_Scene demo_draggable press (10, 10)%Z None
           scene_pushed "scene"); reflexivity.
Defined.

(** Scenario 3 of the specification. *)
Example press_on_button_a :
  handle_event demo_hit demo_from_window demo_isinstance_Scene
               demo_draggable press (10, 10)%Z None scene_pushed
  = (Return (Some "button_a"), button_a_pressed)
  ∧ focus_view button_a_pressed = Some "button_a"
  ∧ calls button_a_pressed
    = [focused "button_a"; mouse_down "button_a" 1 (10, 10)%Z].
Proof. repeat split; vm_compute; reflexivity. Qed.

(** The claim of C3 fails on a press on [button_a] followed by a release
    over [button_b]: [button_a] is told of the blur twice, by the loop and
    by [focus.set(None)]. *)
Lemma release_elsewhere_blurs_twice :
  demo_hit "scene" (110, 10)%Z = Some "button_b"
  ∧ ∃ m',
      handle_event demo_hit demo_from_window demo_isinstance_Scene
                   demo_draggable release (110, 10)%Z (Some "button_a")
                   button_a_pressed
      = (Return None, m')
      ∧ calls m'
        = calls button_a_pressed
          ++ [blurred "button_a"; blurred "button_a";
              mouse_up "button_b" 1 (10, 10)%Z]
      ∧ length (filter (λ c, is_blurred_of "button_a" c = true)
                  [blurred "button_a"; blurred "button_a";
                   mouse_up "button_b" 1 (10, 10)%Z]) ≠ 1.
Proof.
  split; [reflexivity|]. eexists. split; [vm_compute; reflexivity|].
  split; [vm_compute; reflexivity|]. vm_compute. discriminate.
Qed.

Lemma pointer_up_dispatch_demo :
  ∃ m',
    handle_event demo_hit demo_from_window demo_isinstance_Scene
                 demo_draggable release (110, 10)%Z (Some "button_a")
                 button_a_pressed
    = (Return None, m')
    ∧ ∀ A B, Some "button_a" = Some A →
        demo_hit "scene" (110, 10)%Z = Some B → B ≠ A →
        focus_view m' = None
        ∧ ∃ cs, calls m' = calls button_a_pressed ++ cs
            ∧ cs = [blurred A]
                   ++ focus_notifications (focus_view button_a_pressed) None
                   ++ [mouse_up B (e_button release)
                                (demo_from_window B (110, 10)%Z)]
            ∧ filter (λ c, is_mouse_up_of A c = true) cs = []
            ∧ length (filter (λ c, is_blurred_of A c = true) cs)
              = if decide (focus_view button_a_pressed = Some A)
                then 2 else 1.
Proof.
  apply (pointer_up_dispatch demo_hit demo_from_window
           demo_isinstance_Scene demo_draggable release (110, 10)%Z
           (Some "button_a") button_a_pressed "scene"); reflexivity.
Defined.

(** C6 on the code: theme.py is imported before any scene exists, a scene
    is pushed, and [use_theme] is called.  The theme becomes current, but
    [stylize] is not called on the scene although it is the current root:
    [use_theme] tests the name bound at import, which is still [None]. *)
Theorem use_theme_misses_pushed_scene :
  view_current scene_pushed = Some "scene"
  ∧ theme_current_view scene_pushed = None
  ∧ use_theme demo_styles scene_pushed
    = (Return tt, with_theme_current (Some demo_styles) scene_pushed)
  ∧ theme_current (state_of (use_theme demo_styles scene_pushed))
    = Some demo_styles
  ∧ calls (state_of (use_theme demo_styles scene_pushed)) = [].
Proof.
  assert (theme_current_view scene_pushed = None) as Hstale
    by reflexivity.
  split; [reflexivity|]. split; [exact Hstale|].
  rewrite (use_theme_stale demo_styles scene_pushed Hstale).
  repeat split.
Qed.

(** ** Reading the theme key by key *)

Section theme_reading_facts.
Context {V : Type}.
Implicit Types (styles : gmap string (gmap string (gmap string V))).
Implicit Types (style : gmap string V) (k : string) (v : V).

Lemma entry_write styles class_name state key value cn st k :
  entry (write class_name styles (state, key, value)) cn st k
  = if decide (cn = class_name ∧ st = state ∧ k = key) then Some value
    else entry styles cn st k.
Proof.
  unfold write, entry.
  destruct (decide (cn = class_name)) as [->|Hcn].
  2:{ rewrite lookup_insert_ne by done. rewrite decide_False by tauto. done. }
  rewrite lookup_insert_eq. simpl.
  destruct (decide (st = state)) as [->|Hst].
  2:{ rewrite lookup_insert_ne by done. rewrite decide_False by tauto.
      destruct (styles !! class_name); simpl; [done|].
      by rewrite lookup_empty. }
  rewrite lookup_insert_eq. simpl.
  destruct (decide (k = key)) as [->|Hk].
  { rewrite lookup_insert_eq. by rewrite decide_True. }
  rewrite lookup_insert_ne by done. rewrite decide_False by tauto.
  destruct (styles !! class_name) as [by_state|]; simpl.
  - destruct (by_state !! state); simpl; [done|]. by rewrite lookup_empty.
  - by rewrite !lookup_empty.
Qed.

Lemma entry_setdefault styles class_name cn st k :
  entry (setdefault styles class_name ∅).1 cn st k = entry styles cn st k.
Proof.
  unfold setdefault, entry.
  destruct (styles !! class_name) eqn:Hc; simpl; [done|].
  destruct (decide (cn = class_name)) as [->|Hcn].
  - rewrite lookup_insert_eq, Hc. simpl. by rewrite lookup_empty.
  - by rewrite lookup_insert_ne.
Qed.

(** X2. [set] never raises and changes exactly the entry it names. *)
Theorem set_entry styles class_name state key value :
  ∃ styles',
    set class_name state key value styles = (Return tt, styles')
    ∧ ∀ cn st k,
        entry styles' cn st k
        = if decide (cn = class_name ∧ st = state ∧ k = key)
          then Some value else entry styles cn st k.
Proof.
  rewrite set_run. eexists. split; [reflexivity|].
  intros cn st k. apply entry_write.
Qed.

Lemma entry_foldl_write class_name params : ∀ styles cn st k,
  entry (foldl (write class_name) styles params) cn st k
  = if decide (cn = class_name)
    then match last_param params st k with
         | Some v => Some v
         | None => entry styles cn st k
         end
    else entry styles cn st k.
Proof.
  induction params as [|[[state key] value] params IH]; intros styles cn st k;
    cbn [foldl last_param].
  { by destruct (decide (cn = class_name)). }
  rewrite IH, entry_write.
  destruct (decide (cn = class_name)) as [->|Hcn].
  - destruct (last_param params st k); [done|].
    destruct (decide (state = st ∧ key = k)) as [[-> ->]|Hne].
    + by rewrite decide_True.
    + rewrite decide_False; [done|]. intros (_ & -> & ->). by apply Hne.
  - rewrite decide_False; [done|]. tauto.
Qed.

Lemma set_for_class_entries styles class_name params :
  ∃ styles',
    set_for_class class_name params styles = (Return tt, styles')
    ∧ ∀ cn st k,
        entry styles' cn st k
        = if decide (cn = class_name)
          then match last_param params st k with
               | Some v => Some v
               | None => entry styles cn st k
               end
          else entry styles cn st k.
Proof.
  rewrite set_for_class_run, foldl_write_sorted.
  eexists. split; [reflexivity|]. intros cn st k.
  rewrite entry_foldl_write, entry_setdefault. done.
Qed.

(** X3. [set_for_class] never raises.  Afterwards an entry of the class
    holds the value of the last tuple of the list, in the order given, for
    its state and key, or what it held before when no tuple names it;
    the entries of the other classes are as before. *)
Theorem set_for_class_entry styles class_name params :
  ∃ styles',
    set_for_class class_name params styles = (Return tt, styles')
    ∧ ∀ cn st k,
        entry styles' cn st k
        = if decide (cn = class_name)
          then match last_param params st k with
               | Some v => Some v
               | None => entry styles cn st k
               end
          else entry styles cn st k.
Proof. apply set_for_class_entries. Qed.

Lemma set_for_theme_run styles
    (params : list (string * list (string * string * V))) :
  set_for_theme params styles
  = (Return tt,
     foldl (λ styles '(class_name, args),
              state_of (set_for_class class_name args styles))
           styles params).
Proof.
  unfold set_for_theme.
  apply (for_each_write (λ _, True)); [|done].
  intros [class_name args] s _. split; [|done].
  by rewrite set_for_class_run.
Qed.

(** X4. [set_for_theme] never raises.  Afterwards an entry holds the
    value of the last tuple for its state and key over all the blocks of
    its class, in the order given, or what it held before when there is
    none. *)
Theorem set_for_theme_entry styles
    (params : list (string * list (string * string * V))) :
  ∃ styles',
    set_for_theme params styles = (Return tt, styles')
    ∧ ∀ cn st k,
        entry styles' cn st k
        = match last_theme_param params cn st k with
          | Some v => Some v
          | None => entry styles cn st k
          end.
Proof.
  rewrite set_for_theme_run. eexists. split; [reflexivity|].
  revert styles.
  induction params as [|[class_name args] params IH]; intros styles cn st k;
    simpl; [done|].
  rewrite IH.
  destruct (last_theme_param params cn st k); [done|].
  destruct (set_for_class_entries styles class_name args)
    as (s' & Hrun & Hs').
  rewrite Hrun. simpl. rewrite Hs'.
  destruct (decide (cn = class_name)) as [->|Hne].
  - by rewrite decide_True.
  - rewrite decide_False by done. done.
Qed.

End theme_reading_facts.

(** ** The resolver key by key *)

Section resolver_facts.
Context {V : Type}.
Implicit Types (styles : gmap string (gmap string (gmap string V))).
Implicit Types (style : gmap string V) (k : string) (v : V).

Lemma class_layer_own_value styles state class_name k :
  class_layer styles state class_name !! k
  = own_value styles state class_name k.
Proof. apply class_layer_lookup. Qed.

Lemma merge_layers_lookup styles state classes : ∀ style k,
  merge_layers styles state classes style !! k
  = match style !! k with
    | Some v => Some v
    | None => resolve_key styles state classes k
    end.
Proof.
  induction classes as [|klass classes IH]; intros style k;
    cbn [merge_layers foldl resolve_key].
  { by destruct (style !! k). }
  fold (merge_layers styles state classes
          (dict_chain (class_layer styles state (__name__ klass)) style)).
  rewrite IH. unfold dict_chain.
  rewrite lookup_union, class_layer_own_value.
  destruct (style !! k), (own_value styles state (__name__ klass) k); done.
Qed.

Lemma get_dict_for_class_lookup styles leaf state base_name classes :
  collect_classes leaf base_name = Return classes →
  ∃ style,
    get_dict_for_class leaf state base_name styles = (Return style, styles)
    ∧ ∀ k, style !! k
           = resolve_key styles (default "normal" state) classes k.
Proof.
  intros Hwalk. rewrite get_dict_for_class_run, Hwalk.
  eexists. split; [reflexivity|]. intros k.
  by rewrite merge_layers_lookup, lookup_empty.
Qed.

(** X5. When the walk from a class reaches the base class, the map
    [get_dict_for_class] returns gives every key the value of the first
    class of the chain, the class itself first, that defines the key
    under the queried state or else under 'normal'; a key no class of the
    chain defines is absent. *)
Theorem get_dict_for_class_first_definer styles leaf state base_name classes :
  collect_classes leaf base_name = Return classes →
  ∃ style,
    get_dict_for_class leaf state base_name styles = (Return style, styles)
    ∧ ∀ k, style !! k
           = resolve_key styles (default "normal" state) classes k.
Proof. apply get_dict_for_class_lookup. Qed.

Lemma get_value_run styles leaf k default_value state base_name :
  get_value leaf k default_value state base_name styles
  = (match collect_classes leaf base_name with
     | Return classes =>
       Return (default default_value
                 (resolve_key styles (default "normal" state) classes k))
     | Raise e => Raise e
     end, styles).
Proof.
  unfold get_value. rewrite bind_run, get_dict_for_class_run.
  destruct (collect_classes leaf base_name) as [classes|e]; [|reflexivity].
  unfold try_except, lift, getitem.
  rewrite merge_layers_lookup, lookup_empty.
  by destruct (resolve_key styles (default "normal" state) classes k).
Qed.

(** X1. Round trip: after [set] on the name of a class, a state and a
    key, [get_value] for that class, state and key returns the value set
    and not the default, whatever the ancestors define, provided the chain
    of the class reaches the base class. *)
Theorem set_get_value styles C state key value default_value base_name :
  reaches C base_name = true →
  ∃ styles',
    set (__name__ C) state key value styles = (Return tt, styles')
    ∧ get_value C key default_value (Some state) base_name styles'
      = (Return value, styles').
Proof.
  intros Hreach.
  destruct (collect_classes_total _ _ Hreach) as [classes Hwalk].
  destruct (collect_classes_head _ _ _ Hwalk) as [ancestors ->].
  rewrite set_run. eexists. split; [reflexivity|].
  rewrite get_value_run, Hwalk. cbn [default from_option id resolve_key].
  unfold own_value. rewrite entry_write. by rewrite decide_True.
Qed.

Lemma resolve_key_ext styles1 styles2 state classes k :
  (∀ klass, klass ∈ classes →
     own_value styles1 state (__name__ klass) k
     = own_value styles2 state (__name__ klass) k) →
  resolve_key styles1 state classes k = resolve_key styles2 state classes k.
Proof.
  induction classes as [|klass classes IH]; intros Hsame; simpl; [done|].
  rewrite (Hsame klass) by left.
  rewrite IH; [done|]. intros c Hc. apply Hsame. by right.
Qed.

(** X6. A [set] on a class whose name no class of the chain bears, or on
    a state that is neither the queried one nor 'normal', does not change
    what [get_dict_for_class] returns for the chain. *)
Theorem get_dict_for_class_unrelated_set styles leaf state base_name classes
    class_name st key value :
  collect_classes leaf base_name = Return classes →
  (∀ klass, klass ∈ classes → __name__ klass ≠ class_name)
  ∨ (st ≠ default "normal" state ∧ st ≠ "normal") →
  result_of (get_dict_for_class leaf state base_name
               (state_of (set class_name st key value styles)))
  = result_of (get_dict_for_class leaf state base_name styles).
Proof.
  intros Hwalk Hunrelated.
  rewrite set_run, !get_dict_for_class_run, Hwalk.
  unfold result_of, state_of. cbn [fst snd]. f_equal.
  apply map_eq. intros k. rewrite !merge_layers_lookup, !lookup_empty.
  apply resolve_key_ext. intros klass Hin. unfold own_value.
  rewrite !entry_write.
  destruct Hunrelated as [Hclass|[Hst Hnormal]].
  - rewrite !decide_False; [done| |]; intros (Hn & _ & _);
      by apply (Hclass klass Hin).
  - rewrite !decide_False; [done| |]; intros (_ & Hs & _); congruence.
Qed.

(** X7. The walk returns the class itself, then its first parents in
    turn, and stops at the first class named [base_name]: the classes
    returned are an initial part of the chain of first parents, the last
    one is named [base_name] and no other is. *)
Theorem collect_classes_shape klass base_name classes :
  collect_classes klass base_name = Return classes →
  classes `prefix_of` first_parents klass
  ∧ ∃ below base,
      classes = below ++ [base]
      ∧ __name__ base = base_name
      ∧ Forall (λ c, __name__ c ≠ base_name) below.
Proof.
  revert classes.
  induction klass as [name|name parent rest IH] using pyclass_first_ind;
    intros classes; simpl.
  - destruct (decide (name = base_name)) as [->|Hne]; [|done].
    intros [= <-]. split; [done|].
    exists [], (PyClass base_name []). by repeat split.
  - destruct (decide (name = base_name)) as [->|Hne].
    + intros [= <-]. split.
      * by apply prefix_cons, prefix_nil.
      * exists [], (PyClass base_name (parent :: rest)). by repeat split.
    + destruct (collect_classes parent base_name) as [cs|e]; [|done].
      intros [= <-]. destruct (IH cs eq_refl) as [Hpre (below & base & -> & Hb & Hall)].
      split.
      * by apply prefix_cons.
      * exists (PyClass name (parent :: rest) :: below), base.
        repeat split; [done|]. by constructor.
Qed.

Lemma resolve_key_normal_is_Some styles state classes k :
  is_Some (resolve_key styles "normal" classes k) →
  is_Some (resolve_key styles state classes k).
Proof.
  induction classes as [|klass classes IH]; simpl; [done|].
  unfold own_value.
  destruct (entry styles (__name__ klass) "normal" k) as [vn|];
    destruct (entry styles (__name__ klass) state k) as [vs|]; eauto.
Qed.

(** X8. Changing state never loses an attribute: when the chain reaches
    the base class, every key the map for 'normal' (or for no state) has
    is also a key of the map for any other state. *)
Theorem get_dict_for_class_normal_keys styles C state base_name :
  reaches C base_name = true →
  ∃ normal_style style,
    get_dict_for_class C None base_name styles = (Return normal_style, styles)
    ∧ get_dict_for_class C (Some state) base_name styles
      = (Return style, styles)
    ∧ dom normal_style ⊆ dom style.
Proof.
  intros Hreach.
  destruct (collect_classes_total _ _ Hreach) as [classes Hwalk].
  destruct (get_dict_for_class_lookup styles C None base_name classes Hwalk)
    as (sn & Hn & Hsn).
  destruct (get_dict_for_class_lookup styles C (Some state) base_name classes
              Hwalk) as (ss & Hs & Hss).
  exists sn, ss. split; [done|]. split; [done|].
  intros k. rewrite !elem_of_dom, Hsn, Hss.
  apply resolve_key_normal_is_Some.
Qed.

Lemma resolve_key_unstyled styles state classes k :
  (∀ klass, klass ∈ classes →
     entry styles (__name__ klass) state k = None) →
  resolve_key styles state classes k = resolve_key styles "normal" classes k.
Proof.
  induction classes as [|klass classes IH]; intros Hnone; simpl; [done|].
  unfold own_value. rewrite (Hnone klass) by left.
  rewrite IH by (intros c Hc; apply Hnone; by right).
  by destruct (entry styles (__name__ klass) "normal" k).
Qed.

(** X9. A state for which no class of the chain has an entry resolves as
    'normal' does. *)
Theorem get_dict_for_class_unstyled_state styles leaf state base_name
    classes :
  collect_classes leaf base_name = Return classes →
  (∀ klass k, klass ∈ classes →
     entry styles (__name__ klass) state k = None) →
  get_dict_for_class leaf (Some state) base_name styles
  = get_dict_for_class leaf (Some "normal") base_name styles.
Proof.
  intros Hwalk Hnone.
  rewrite !get_dict_for_class_run, Hwalk. f_equal. f_equal.
  apply map_eq. intros k. rewrite !merge_layers_lookup, !lookup_empty.
  apply resolve_key_unstyled. intros klass Hin. by apply Hnone.
Qed.

End resolver_facts.

(** ** More of the event loop *)

Lemma for_each_app {S A B} (body : A → B → Py S A) (xs ys : list B) :
  ∀ (acc : A) (s : S),
  for_each (xs ++ ys) acc body s
  = match for_each xs acc body s with
    | (Return acc', s') => for_each ys acc' body s'
    | (Raise e, s') => (Raise e, s')
    end.
Proof.
  induction xs as [|x xs IH]; intros acc s; simpl; [reflexivity|].
  rewrite !bind_run. destruct (body acc x s) as [[acc'|e] s']; [|reflexivity].
  apply IH.
Qed.

Section loop_facts.
Context {view theme : Type} `{EqDecision view}.
Context (hit : view → point → option view).
Context (from_window : view → point → point).
Context (isinstance_Scene : view → bool).
Context (draggable : view → bool).
Implicit Types (m : @modules view theme) (v root : view).
Implicit Types (down_in_view : option view).


(** X10. Pointer motion: while a draggable view is pressed, the motion
    goes to that view alone, as [mouse_drag] with the point in its own
    coordinates and the event's relative motion, whatever the current
    root; otherwise it goes to the current root as [mouse_motion] with
    the window point.  The pressed view and the focus stay as they are. *)
Theorem pointer_motion_dispatch e mousepoint down_in_view m :
  e_type e = MOUSEMOTION →
  (∀ dv, down_in_view = Some dv → draggable dv = true →
     handle_event (theme:=theme) hit from_window isinstance_Scene
       draggable e mousepoint down_in_view m
     = (Return (Some dv),
        after m (focus_view m)
          [mouse_drag dv (from_window dv mousepoint) (e_rel e)]))
  ∧ (∀ root, view_current m = Some root →
       (down_in_view = None
        ∨ ∃ dv, down_in_view = Some dv ∧ draggable dv = false) →
       handle_event (theme:=theme) hit from_window isinstance_Scene
         draggable e mousepoint down_in_view m
       = (Return down_in_view,
          after m (focus_view m) [mouse_motion root mousepoint])).
Proof.
  intros He. unfold handle_event. rewrite He. split.
  - intros dv -> Hdrag. rewrite Hdrag. reflexivity.
  - intros root Hroot [->|(dv & -> & Hdrag)]; rewrite ?Hdrag;
      rewrite (bind_return _ _ _ _ _ (current_root_run _ _ Hroot));
      reflexivity.
Qed.

(** X11. Keys: [key_down] and [key_up] go to the focused view when there
    is one, else to the current root, with the key (and for [key_down]
    the character) of the event; the pressed view and the focus stay as
    they are. *)
Theorem key_dispatch e mousepoint down_in_view m :
  (e_type e = KEYDOWN →
     (∀ v, focus_view m = Some v →
        handle_event (theme:=theme) hit from_window isinstance_Scene
          draggable e mousepoint down_in_view m
        = (Return down_in_view,
           after m (focus_view m) [key_down v (e_key e) (e_unicode e)]))
     ∧ (∀ root, focus_view m = None → view_current m = Some root →
        handle_event (theme:=theme) hit from_window isinstance_Scene
          draggable e mousepoint down_in_view m
        = (Return down_in_view,
           after m (focus_view m) [key_down root (e_key e) (e_unicode e)])))
  ∧ (e_type e = KEYUP →
     (∀ v, focus_view m = Some v →
        handle_event (theme:=theme) hit from_window isinstance_Scene
          draggable e mousepoint down_in_view m
        = (Return down_in_view,
           after m (focus_view m) [key_up v (e_key e)]))
     ∧ (∀ root, focus_view m = None → view_current m = Some root →
        handle_event (theme:=theme) hit from_window isinstance_Scene
          draggable e mousepoint down_in_view m
        = (Return down_in_view,
           after m (focus_view m) [key_up root (e_key e)]))).
Proof.
  unfold handle_event.
  split; intros He; rewrite He; split.
  - intros v Hf. unfold invoke, modify, with_call, after. run_py.
    rewrite Hf. simpl. by rewrite ?Hf.
  - intros root Hf Hroot.
    unfold current_root, invoke, modify, with_call, after. run_py.
    rewrite Hf. run_py. rewrite Hroot. simpl. by rewrite ?Hf, ?Hroot.
  - intros v Hf. unfold invoke, modify, with_call, after. run_py.
    rewrite Hf. simpl. by rewrite ?Hf.
  - intros root Hf Hroot.
    unfold current_root, invoke, modify, with_call, after. run_py.
    rewrite Hf. run_py. rewrite Hroot. simpl. by rewrite ?Hf, ?Hroot.
Qed.

(** X12. The events of a frame are handled in the order queued, each on
    the modules and the pressed view the one before left; a QUIT raises
    [SystemExit] at once, and after QUIT or any other exception no later
    event of the frame is handled. *)
Theorem handle_events_in_order before later down_in_view m :
  handle_events (theme:=theme) hit from_window isinstance_Scene
    draggable (before ++ later) down_in_view m
  = match handle_events (theme:=theme) hit from_window isinstance_Scene
    draggable before down_in_view m with
    | (Return down', m') => handle_events (theme:=theme) hit from_window isinstance_Scene
      draggable later down' m'
    | (Raise exc, m') => (Raise exc, m')
    end
  ∧ ∀ e mousepoint, e_type e = QUIT →
      handle_events (theme:=theme) hit from_window isinstance_Scene
        draggable ((e, mousepoint) :: later) down_in_view m
      = (Raise SystemExit, m).
Proof.
  split.
  - apply for_each_app.
  - intros e mousepoint He. unfold handle_events. simpl.
    rewrite bind_run. unfold handle_event. rewrite He. reflexivity.
Qed.

End loop_facts.

Section loop_invariants.
Context {view theme : Type} `{EqDecision view}.
Context (hit : view → point → option view).
Context (from_window : view → point → point).
Context (isinstance_Scene : view → bool).
Context (draggable : view → bool).
Implicit Types (m : @modules view theme) (v root : view).
Implicit Types (down_in_view : option view).


Lemma pointer_up_plain_run e mousepoint down_in_view m root B :
  e_type e = MOUSEBUTTONUP →
  view_current m = Some root →
  hit root mousepoint = Some B →
  down_in_view = None ∨ down_in_view = Some B →
  handle_event (theme:=theme) hit from_window isinstance_Scene
    draggable e mousepoint down_in_view m
  = (Return None,
     after m (focus_view m)
       [mouse_up B (e_button e) (from_window B mousepoint)]).
Proof.
  intros He Hroot Hhit Hdown. unfold handle_event. rewrite He.
  rewrite (bind_return _ _ _ _ _ (current_root_run _ _ Hroot)).
  rewrite Hhit. destruct Hdown as [->| ->].
  - reflexivity.
  - rewrite decide_False by (intros Hne; by apply Hne). reflexivity.
Qed.

(** X14. A pointer-up over the pressed view, or over any view when none
    is pressed, calls [mouse_up] on the view hit, a [Scene] included, with
    the button and the point in its coordinates, and nothing else: no
    blur, the focus as it was, the pressed view cleared. *)
Theorem pointer_up_plain e mousepoint down_in_view m root B :
  e_type e = MOUSEBUTTONUP →
  view_current m = Some root →
  hit root mousepoint = Some B →
  down_in_view = None ∨ down_in_view = Some B →
  handle_event (theme:=theme) hit from_window isinstance_Scene
    draggable e mousepoint down_in_view m
  = (Return None,
     after m (focus_view m)
       [mouse_up B (e_button e) (from_window B mousepoint)]).
Proof. apply pointer_up_plain_run. Qed.

Lemma pointer_down_run e mousepoint down_in_view m root hv :
  e_type e = MOUSEBUTTONDOWN →
  view_current m = Some root →
  hit root mousepoint = Some hv →
  isinstance_Scene hv = false →
  handle_event (theme:=theme) hit from_window isinstance_Scene
    draggable e mousepoint down_in_view m
  = (Return (Some hv),
     after m (Some hv)
       (focus_notifications (focus_view m) (Some hv)
        ++ [mouse_down hv (e_button e) (from_window hv mousepoint)])).
Proof.
  intros He Hroot Hhit Hscene. unfold handle_event. rewrite He.
  rewrite (bind_return _ _ _ _ _ (current_root_run _ _ Hroot)).
  rewrite Hhit, Hscene. simpl.
  rewrite (bind_return _ _ _ _ _ (focus_set_run _ _)).
  rewrite (bind_return _ _ _ _ _ (invoke_run _ _)).
  by rewrite after_after.
Qed.

(** X19. A click: a pointer-down and a pointer-up that both hit the same
    view, no [Scene], give it the focus, call its [mouse_down] and then
    its [mouse_up], each with its button and the point in the view's
    coordinates, send no blur to it, and leave it focused with no view
    pressed. *)
Theorem click_dispatch e1 p1 e2 p2 down_in_view m root A :
  e_type e1 = MOUSEBUTTONDOWN →
  e_type e2 = MOUSEBUTTONUP →
  view_current m = Some root →
  hit root p1 = Some A →
  hit root p2 = Some A →
  isinstance_Scene A = false →
  handle_events (theme:=theme) hit from_window isinstance_Scene
    draggable [(e1, p1); (e2, p2)] down_in_view m
  = (Return None,
     after m (Some A)
       (focus_notifications (focus_view m) (Some A)
        ++ [mouse_down A (e_button e1) (from_window A p1);
            mouse_up A (e_button e2) (from_window A p2)])).
Proof.
  intros He1 He2 Hroot Hhit1 Hhit2 Hscene. unfold handle_events. simpl.
  rewrite (bind_return _ _ _ _ _
             (pointer_down_run e1 p1 down_in_view m root A
                He1 Hroot Hhit1 Hscene)).
  rewrite (bind_return _ _ _ _ _
             (pointer_up_plain_run e2 p2 (Some A)
                (after m (Some A)
                   (focus_notifications (focus_view m) (Some A)
                    ++ [mouse_down A (e_button e1) (from_window A p1)]))
                root A He2 Hroot Hhit2 (or_intror eq_refl))).
  unfold mret, Py_ret. simpl focus_view. rewrite after_after.
  by rewrite <-app_assoc.
Qed.

(** X15. A pointer-up that hits no view calls nothing, not even on the
    pressed view, and leaves the focus where it is; only the pressed view
    is cleared. *)
Theorem pointer_up_outside e mousepoint down_in_view m root :
  e_type e = MOUSEBUTTONUP →
  view_current m = Some root →
  hit root mousepoint = None →
  handle_event (theme:=theme) hit from_window isinstance_Scene
    draggable e mousepoint down_in_view m = (Return None, m).
Proof.
  intros He Hroot Hhit. unfold handle_event. rewrite He.
  rewrite (bind_return _ _ _ _ _ (current_root_run _ _ Hroot)).
  rewrite Hhit. reflexivity.
Qed.









Lemma returns_in_bind {A B} (c : Py (@modules view theme) A)
    (f : A → Py (@modules view theme) B) (P : B → Prop) :
  (∀ a, returns_in (f a) P) → returns_in (c ≫= f) P.
Proof.
  intros Hf m b. rewrite bind_run.
  destruct (c m) as [[a|exc] m1]; [apply Hf|discriminate].
Qed.

Lemma returns_in_ret {A} (a : A) (P : A → Prop) :
  P a → returns_in (mret a : Py (@modules view theme) A) P.
Proof. intros Ha m b [= <-]. exact Ha. Qed.

Lemma returns_in_raise {A} exc (P : A → Prop) :
  returns_in (raise exc : Py (@modules view theme) A) P.
Proof. intros m b [=]. Qed.

(** The pressed view after one event: the one before, none, or the view
    hit, which is then no [Scene]. *)
Lemma handle_event_pressed e mousepoint down_in_view :
  returns_in (handle_event (theme:=theme) hit from_window isinstance_Scene
    draggable e mousepoint down_in_view)
    (λ down', down' = down_in_view ∨ down' = None
              ∨ ∃ hv, down' = Some hv ∧ isinstance_Scene hv = false).
Proof.
  unfold handle_event.
  destruct (e_type e);
    repeat first
      [ apply returns_in_raise
      | apply returns_in_ret; by eauto
      | apply returns_in_bind; intros ?
      | match goal with
        | |- returns_in (match ?x with _ => _ end) _ => destruct x eqn:?
        | |- returns_in (if ?x then _ else _) _ => destruct x eqn:?
        end ].
  apply returns_in_ret. right. right. eexists. split; [done|].
  by apply negb_true_iff.
Qed.

(** X13. The pressed view is never a [Scene]: if it is none or no
    [Scene] before the events of a frame, so it is after them, whatever
    they are. *)
Theorem pressed_view_never_Scene events down_in_view m down' :
  no_Scene isinstance_Scene down_in_view →
  result_of (handle_events (theme:=theme) hit from_window isinstance_Scene
    draggable events down_in_view m) = Return down' →
  no_Scene isinstance_Scene down'.
Proof.
  revert down_in_view m. unfold handle_events.
  induction events as [|[e mousepoint] events IH]; intros down_in_view m Hok;
    simpl.
  - by intros [= <-].
  - rewrite bind_run.
    pose proof (handle_event_pressed e mousepoint down_in_view m) as Hone.
    destruct (handle_event (theme:=theme) hit from_window isinstance_Scene
      draggable e mousepoint down_in_view m) as [[d1|exc] m1];
      [|discriminate].
    apply IH. destruct (Hone d1 eq_refl) as [->|[->|(hv & -> & Hhv)]].
    + exact Hok.
    + by intros v.
    + by intros v [= <-].
Qed.

(** X17. A pointer-down on the bare scene or on nothing does not release
    the press: the pressed view stays what it was. *)
Theorem pointer_down_keeps_pressed e mousepoint down_in_view m root :
  e_type e = MOUSEBUTTONDOWN →
  view_current m = Some root →
  hit root mousepoint = None
  ∨ (∃ hv, hit root mousepoint = Some hv ∧ isinstance_Scene hv = true) →
  result_of (handle_event (theme:=theme) hit from_window isinstance_Scene
    draggable e mousepoint down_in_view m) = Return down_in_view.
Proof.
  intros He Hroot Hhit. unfold handle_event. rewrite He.
  rewrite (bind_return _ _ _ _ _ (current_root_run _ _ Hroot)).
  destruct Hhit as [->|(hv & -> & ->)]; simpl;
    by rewrite (bind_return _ _ _ _ _ (focus_set_run _ _)).
Qed.

End loop_invariants.

(** ** Start-up *)

Section start_facts.
Context (HWSURFACE DOUBLEBUF : Z).

Lemma init_cfg_lookup (config : option (gmap string pyvalue)) (key : string) :
  match config with
  | Some config =>
    if decide (config ≠ ∅)
    then dict_update (default_config HWSURFACE DOUBLEBUF) config
    else default_config HWSURFACE DOUBLEBUF
  | None => default_config HWSURFACE DOUBLEBUF
  end !! key
  = setting HWSURFACE DOUBLEBUF config key.
Proof.
  unfold setting, dict_update. destruct config as [config|]; simpl; [|done].
  destruct (decide (config ≠ ∅)) as [Hne|Hempty].
  - rewrite lookup_union. by destruct (config !! key), (default_config _ _ !! key).
  - apply dec_stable in Hempty. subst config. by rewrite lookup_empty.
Qed.

Lemma setting_is_Some config key :
  key ∈ ["DISPLAY_SIZE"; "DISPLAY_MODE"; "MOUSE_VISIBLE"] →
  is_Some (setting HWSURFACE DOUBLEBUF config key).
Proof.
  intros Hkey. unfold setting.
  destruct (config ≫= (.!! key)); [by eexists|].
  apply list_elem_of_In in Hkey. simpl in Hkey.
  destruct Hkey as [<-|[<-|[<-|[]]]]; by eexists.
Qed.

(** X18. [init] never fails on its configuration, be it absent, empty,
    partial or with keys of its own: each of the display size, the
    display mode and the mouse visibility is the configuration's value
    when it has one and the default's otherwise.  [init] makes its calls
    in a fixed order with these values and binds [window.rect] to the
    rectangle of the display size at (0, 0). *)
Theorem init_settings name config s :
  ∃ size mode visible,
    setting HWSURFACE DOUBLEBUF config "DISPLAY_SIZE" = Some size
    ∧ setting HWSURFACE DOUBLEBUF config "DISPLAY_MODE" = Some mode
    ∧ setting HWSURFACE DOUBLEBUF config "MOUSE_VISIBLE" = Some visible
    ∧ init HWSURFACE DOUBLEBUF name config s
      = (Return tt,
         StartState (Some (size, mode)) (Some ((0, 0)%Z, size))
           (init_calls s
            ++ [pygame_init; key_set_repeat 200 50;
                display_set_mode size mode; display_set_caption name;
                mouse_set_visible visible; theme_init])).
Proof.
  destruct (setting_is_Some config "DISPLAY_SIZE") as [size Hsize];
    [repeat constructor|].
  destruct (setting_is_Some config "DISPLAY_MODE") as [mode Hmode];
    [repeat constructor|].
  destruct (setting_is_Some config "MOUSE_VISIBLE") as [visible Hvisible];
    [repeat constructor|].
  exists size, mode, visible. repeat split; [done..|].
  unfold init, init_invoke, modify. run_py.
  rewrite !init_cfg_lookup, Hsize, Hmode, Hvisible. simpl.
  by rewrite <-!app_assoc.
Qed.

End start_facts.

(** ** The further theorems at work on the example theme *)

Lemma entry_no_cell {V} (styles : gmap string (gmap string (gmap string V)))
    (class_name state : string) :
  styles !! class_name ≫= (.!! state) = None →
  ∀ k, entry styles class_name state k = None.
Proof.
  intros Hnone k. unfold entry.
  destruct (styles !! class_name) as [by_state|]; simpl in *; [|done].
  by rewrite Hnone.
Qed.

(** A focused background colour set on [DialogView] is what a focused
    [DialogView] gets, not the yellow of [View]. *)
Lemma set_get_value_demo :
  ∃ styles',
    set (__name__ DialogView) "focused" "background_color" "orange"
        demo_styles
    = (Return tt, styles')
    ∧ get_value DialogView "background_color" "none" (Some "focused") "View"
        styles'
      = (Return "orange", styles').
Proof.
  apply (set_get_value demo_styles DialogView "focused" "background_color"
           "orange" "none" "View").
  reflexivity.
Defined.

Lemma get_dict_for_class_first_definer_demo :
  ∃ style,
    get_dict_for_class AlertView (Some "focused") "View" demo_styles
      = (Return style, demo_styles)
    ∧ ∀ k, style !! k
           = resolve_key demo_styles (default "normal" (Some "focused"))
               [AlertView; DialogView; View] k.
Proof.
  apply (get_dict_for_class_first_definer demo_styles AlertView
           (Some "focused") "View" [AlertView; DialogView; View]).
  reflexivity.
Defined.

(** A focused [AlertView]: padding of its own, the background colour of
    [DialogView] under 'normal' before the focused one of [View], the
    border widths of [View]. *)
Example focused_AlertView_resolved :
  resolve_key demo_styles "focused" [AlertView; DialogView; View] "padding"
    = Some "(6, 6)"
  ∧ resolve_key demo_styles "focused" [AlertView; DialogView; View]
      "background_color" = Some "light_gray"
  ∧ resolve_key demo_styles "focused" [AlertView; DialogView; View]
      "border_widths" = Some "0"
  ∧ resolve_key demo_styles "focused" [AlertView; DialogView; View]
      "hole_color" = None.
Proof. repeat split; vm_compute; reflexivity. Qed.

(** Styling [Button] changes nothing for an [AlertView]. *)
Lemma get_dict_for_class_unrelated_set_demo :
  result_of (get_dict_for_class AlertView (Some "focused") "View"
               (state_of (set "Button" "focused" "background_color" "yellow"
                              demo_styles)))
  = result_of (get_dict_for_class AlertView (Some "focused") "View"
                 demo_styles).
Proof.
  apply (get_dict_for_class_unrelated_set demo_styles AlertView
           (Some "focused") "View" [AlertView; DialogView; View]
           "Button" "focused" "background_color" "yellow").
  - reflexivity.
  - left. intros klass Hin. apply list_elem_of_In in Hin. simpl in Hin.
    destruct Hin as [<-|[<-|[<-|[]]]]; discriminate.
Defined.

Lemma collect_classes_shape_demo :
  [AlertView; DialogView; View] `prefix_of` first_parents AlertView
  ∧ ∃ below base,
      [AlertView; DialogView; View] = below ++ [base]
      ∧ __name__ base = "View"
      ∧ Forall (λ c, __name__ c ≠ "View") below.
Proof.
  apply (collect_classes_shape AlertView "View"
           [AlertView; DialogView; View]).
  reflexivity.
Defined.

Lemma get_dict_for_class_normal_keys_demo :
  ∃ normal_style style,
    get_dict_for_class AlertView None "View" demo_styles
      = (Return normal_style, demo_styles)
    ∧ get_dict_for_class AlertView (Some "focused") "View" demo_styles
      = (Return style, demo_styles)
    ∧ dom normal_style ⊆ dom style.
Proof.
  apply (get_dict_for_class_normal_keys demo_styles AlertView "focused"
           "View").
  reflexivity.
Defined.

(** The example theme styles no class for 'disabled'. *)
Lemma get_dict_for_class_unstyled_state_demo :
  get_dict_for_class AlertView (Some "disabled") "View" demo_styles
  = get_dict_for_class AlertView (Some "normal") "View" demo_styles.
Proof.
  apply (get_dict_for_class_unstyled_state demo_styles AlertView "disabled"
           "View" [AlertView; DialogView; View]).
  - reflexivity.
  - intros klass k Hin. apply list_elem_of_In in Hin. simpl in Hin.
    destruct Hin as [<-|[<-|[<-|[]]]]; apply entry_no_cell;
      vm_compute; reflexivity.
Defined.

(** ** The further theorems at work on the example scene *)

(** [button_a], pressed and draggable, is dragged. *)
Lemma pointer_motion_dispatch_demo :
  handle_event demo_hit demo_from_window demo_isinstance_Scene
               demo_draggable_a motion (15, 10)%Z (Some "button_a")
               button_a_pressed
  = (Return (Some "button_a"),
     after button_a_pressed (focus_view button_a_pressed)
       [mouse_drag "button_a" (demo_from_window "button_a" (15, 10)%Z)
                   (e_rel motion)]).
Proof.
  apply (proj1 (pointer_motion_dispatch demo_hit demo_from_window
                  demo_isinstance_Scene demo_draggable_a motion (15, 10)%Z
                  (Some "button_a") button_a_pressed eq_refl)
           "button_a"); reflexivity.
Defined.

(** The key goes to [button_a], which has the focus. *)
Lemma key_dispatch_demo :
  handle_event demo_hit demo_from_window demo_isinstance_Scene
               demo_draggable key_a_down (15, 10)%Z (Some "button_a")
               button_a_pressed
  = (Return (Some "button_a"),
     after button_a_pressed (focus_view button_a_pressed)
       [key_down "button_a" (e_key key_a_down) (e_unicode key_a_down)]).
Proof.
  apply (proj1 (proj1 (key_dispatch demo_hit demo_from_window
                         demo_isinstance_Scene demo_draggable key_a_down
                         (15, 10)%Z (Some "button_a") button_a_pressed)
                  eq_refl) "button_a").
  reflexivity.
Defined.

(** A press, then the window is closed: the release queued after the
    QUIT is not handled. *)
Lemma handle_events_in_order_demo :
  handle_events demo_hit demo_from_window demo_isinstance_Scene
                demo_draggable
                ([(press, (10, 10)%Z)]
                 ++ [(quit, (10, 10)%Z); (release, (10, 10)%Z)])
                None scene_pushed
  = (Raise SystemExit, button_a_pressed).
Proof.
  rewrite (proj1 (handle_events_in_order demo_hit demo_from_window
                    demo_isinstance_Scene demo_draggable
                    [(press, (10, 10)%Z)]
                    [(quit, (10, 10)%Z); (release, (10, 10)%Z)]
                    None scene_pushed)).
  reflexivity.
Defined.

Lemma pressed_view_never_Scene_demo :
  no_Scene demo_isinstance_Scene (Some "button_a").
Proof.
  apply (pressed_view_never_Scene demo_hit demo_from_window
           demo_isinstance_Scene demo_draggable
           [(press, (300, 300)%Z); (press, (10, 10)%Z);
            (motion, (15, 10)%Z)]
           None scene_pushed (Some "button_a")).
  - intros v [=].
  - vm_compute; reflexivity.
Defined.

(** A click: the release over [button_a], which is pressed. *)
Lemma pointer_up_plain_demo :
  handle_event demo_hit demo_from_window demo_isinstance_Scene
               demo_draggable release (12, 10)%Z (Some "button_a")
               button_a_pressed
  = (Return None,
     after button_a_pressed (focus_view button_a_pressed)
       [mouse_up "button_a" (e_button release)
                 (demo_from_window "button_a" (12, 10)%Z)]).
Proof.
  apply (pointer_up_plain demo_hit demo_from_window demo_isinstance_Scene
           demo_draggable release (12, 10)%Z (Some "button_a")
           button_a_pressed "scene" "button_a").
  - reflexivity.
  - reflexivity.
  - reflexivity.
  - right. reflexivity.
Defined.

(** A release outside the window. *)
Lemma pointer_up_outside_demo :
  handle_event demo_hit demo_from_window demo_isinstance_Scene
               demo_draggable release (700, 10)%Z (Some "button_a")
               button_a_pressed
  = (Return None, button_a_pressed).
Proof.
  apply (pointer_up_outside demo_hit demo_from_window demo_isinstance_Scene
           demo_draggable release (700, 10)%Z (Some "button_a")
           button_a_pressed "scene"); reflexivity.
Defined.

(** A second press, on the bare scene, while [button_a] is pressed. *)
Lemma pointer_down_keeps_pressed_demo :
  result_of (handle_event demo_hit demo_from_window demo_isinstance_Scene
               demo_draggable press (300, 300)%Z (Some "button_a")
               button_a_pressed)
  = Return (Some "button_a").
Proof.
  apply (pointer_down_keeps_pressed demo_hit demo_from_window
           demo_isinstance_Scene demo_draggable press (300, 300)%Z
           (Some "button_a") button_a_pressed "scene").
  - reflexivity.
  - reflexivity.
  - right. exists "scene". split; reflexivity.
Defined.

(** ** What a theme shows of its table *)

Section observable.
Context {V : Type}.
Implicit Types (styles : gmap string (gmap string (gmap string V))).

Lemma get_dict_for_class_by_entries styles1 styles2 leaf state base_name :
  (∀ cn st k, entry styles1 cn st k = entry styles2 cn st k) →
  result_of (get_dict_for_class leaf state base_name styles1)
  = result_of (get_dict_for_class leaf state base_name styles2).
Proof.
  intros Hsame. rewrite !get_dict_for_class_run.
  unfold result_of. cbn [fst].
  destruct (collect_classes leaf base_name) as [classes|exc]; [|done].
  f_equal. apply map_eq. intros k.
  rewrite !merge_layers_lookup, !lookup_empty.
  apply resolve_key_ext. intros klass _. unfold own_value.
  by rewrite !Hsame.
Qed.

(** X20. For every list of tuples, the empty one included,
    [set_for_class] and one [set] per tuple in the order of the list
    leave themes that [get_dict_for_class] and [get_value] cannot tell
    apart: they return the same for every class, state, key and base
    name. *)
Theorem set_for_class_observably_set_each styles class_name params
    leaf state base_name key default_value :
  result_of (get_dict_for_class leaf state base_name
               (state_of (set_for_class class_name params styles)))
  = result_of (get_dict_for_class leaf state base_name
                 (state_of (set_each class_name params styles)))
  ∧ result_of (get_value leaf key default_value state base_name
                 (state_of (set_for_class class_name params styles)))
    = result_of (get_value leaf key default_value state base_name
                   (state_of (set_each class_name params styles))).
Proof.
  assert (∀ cn st k,
            entry (state_of (set_for_class class_name params styles))
                  cn st k
            = entry (state_of (set_each class_name params styles)) cn st k)
    as Hsame.
  { intros cn st k.
    rewrite set_for_class_run, set_each_run, foldl_write_sorted.
    unfold state_of. cbn [snd].
    by rewrite !entry_foldl_write, entry_setdefault. }
  split; [by apply get_dict_for_class_by_entries|].
  rewrite !get_value_run. unfold result_of. cbn [fst].
  destruct (collect_classes leaf base_name) as [classes|exc]; [|done].
  do 2 f_equal. apply resolve_key_ext. intros klass _. unfold own_value.
  by rewrite !Hsame.
Qed.

End observable.

(** A click on [button_a]. *)
Lemma click_dispatch_demo :
  handle_events demo_hit demo_from_window demo_isinstance_Scene
                demo_draggable [(press, (10, 10)%Z); (release, (12, 10)%Z)]
                None scene_pushed
  = (Return None,
     after scene_pushed (Some "button_a")
       (focus_notifications (focus_view scene_pushed) (Some "button_a")
        ++ [mouse_down "button_a" (e_button press)
                       (demo_from_window "button_a" (10, 10)%Z);
            mouse_up "button_a" (e_button release)
                     (demo_from_window "button_a" (12, 10)%Z)])).
Proof.
  apply (click_dispatch demo_hit demo_from_window demo_isinstance_Scene
           demo_draggable press (10, 10)%Z release (12, 10)%Z None
           scene_pushed "scene" "button_a"); reflexivity.
Defined.
